(** * cloudigrade: task lifecycle, per-user locking and event processing

    A shallow embedding of [cloudigrade/api/tasks.py]:
    [calculate_max_concurrent_usage_task], [_delete_cloud_accounts] with its
    two callers, [process_instance_event],
    [persist_inspection_cluster_results_task] and [delete_inactive_users];
    and of [api_exception_handler] of [cloudigrade/util/exceptions.py].
    The persistent store is an explicit record of
    tables; Python control flow (fall through, [return], [raise]) is a
    three-way completion threaded through a state monad; every call that
    leaves the module is recorded in a log so that "what was invoked, in
    which order, under which lock" can be stated. *)

From stdpp Require Import gmap strings list.

Open Scope Z_scope.

(** ** Data model *)

Module Model.

(** Modelled from the spec: [api/models.py] is not among the sources.  The
    three lifecycle states of one usage-calculation attempt, under the names
    the task uses for them. *)
Inductive status := SCHEDULED | COMPLETE | ERROR.

#[global] Instance status_eq_dec : EqDecision status.
Proof. solve_decision. Defined.

(** Modelled from the spec: a row of the ConcurrentUsageCalculationTask table
    (task_id unique, user_id, date, status).  The table is keyed by
    [task_id], so the key is not repeated in the row. *)
Record ConcurrentUsageCalculationTask := mkTask {
  task_user_id : Z;
  task_date : Z;
  task_status : status
}.

(** Modelled from the spec: a ConcurrentUsage snapshot (peak_count,
    peak_vcpu, peak_memory), one per (user_id, date). *)
Record ConcurrentUsage := mkUsage {
  peak_count : Z;
  peak_vcpu : Z;
  peak_memory : Z
}.

(** An in-memory [CloudAccount] object: its primary key and its user. *)
Record CloudAccount := mkAccount {
  account_id : Z;
  account_user_id : Z
}.

(** Modelled from the spec: the event kind, [InstanceEvent.TYPE] in the
    source. *)
Inductive TYPE := power_on | power_off.

#[global] Instance TYPE_eq_dec : EqDecision TYPE.
Proof. solve_decision. Defined.

(** The fields of an [InstanceEvent] the module reads. *)
Record InstanceEvent := mkEvent {
  instance_id : Z;
  event_type : TYPE;
  occurred_at : Z
}.

(** What [normalize_runs] yields for each on-period. *)
Record NormalizedRun := mkNormalizedRun {
  nr_start_time : Z;
  nr_end_time : option Z;
  nr_image_id : Z;
  nr_instance_id : Z;
  nr_instance_type : string;
  nr_instance_memory : Z;
  nr_instance_vcpu : Z
}.

(** Modelled from the spec: a row of the Run table (instance_id, image_id,
    start, end?, type, memory, vcpu), under the field names of the [Run(...)]
    call in [process_instance_event]. *)
Record Run := mkRun {
  start_time : Z;
  end_time : option Z;
  machineimage_id : Z;
  run_instance_id : Z;
  instance_type : string;
  memory : Z;
  vcpu : Z
}.

(** Modelled from the spec: the persisted state layout, with the user,
    account and instance tables the module queries.  Dates are day ordinals,
    timestamps are seconds. *)
Record DB := mkDB {
  auth_user : gset Z;
  calculation_tasks : gmap string ConcurrentUsageCalculationTask;
  concurrent_usage : gmap (Z * Z) ConcurrentUsage;
  cloud_accounts : gmap Z Z;
  instances : gset Z;
  runs : list Run
}.

Definition set_calculation_tasks
    (f : gmap string ConcurrentUsageCalculationTask →
         gmap string ConcurrentUsageCalculationTask) (d : DB) : DB :=
  mkDB (auth_user d) (f (calculation_tasks d)) (concurrent_usage d)
       (cloud_accounts d) (instances d) (runs d).

Definition set_runs (f : list Run → list Run) (d : DB) : DB :=
  mkDB (auth_user d) (calculation_tasks d) (concurrent_usage d)
       (cloud_accounts d) (instances d) (f (runs d)).

Definition with_status (s : status) (t : ConcurrentUsageCalculationTask) :=
  mkTask (task_user_id t) (task_date t) s.

(** Django models whose [DoesNotExist] the module handles. *)
Inductive model := TaskModel | CloudAccountModel | InstanceModel | UserModel.

(** Instances of Python's [Exception]. *)
Inductive exn :=
  | DoesNotExist (m : model)
  | LockTimeout
  | OtherError (msg : string).

#[global] Instance model_eq_dec : EqDecision model.
Proof. solve_decision. Defined.

#[global] Instance exn_eq_dec : EqDecision exn.
Proof. solve_decision. Defined.

(** Calls that leave [api/tasks.py]. *)
Inductive call :=
  | Schedule (date user_id : Z)
  | Calculate (date user_id : Z)
  | DeleteAccount (id : Z)
  | Recalculate (ev : InstanceEvent)
  | Normalize (evs : list InstanceEvent)
  | CalculateFromRuns (rs : list Run).

(** What an execution does, in order. *)
Inductive effect :=
  | LockAcquired (ids : gset Z)
  | LockReleased (ids : gset Z)
  | TaskRead (task_id : string) (found : option ConcurrentUsageCalculationTask)
  | TaskSaved (task_id : string) (row : ConcurrentUsageCalculationTask)
  | TaskStatusUpdated (task_id : string) (s : status)
  | RunSaved (r : Run)
  | Called (c : call) (raised : option exn).

(** The state one execution threads: the store, the locks this execution
    holds, and its log. *)
Record World := mkWorld {
  db : DB;
  held : gset Z;
  log : list effect
}.

End Model.

Export Model.

(** ** Python control flow as a state monad *)

Module Py.

(** How a block ends: it falls through with a value, the enclosing function
    returns (every [return] of the modelled functions returns [None]), or an
    exception propagates. *)
Inductive completion (A : Type) :=
  | Next (a : A)
  | Return
  | Raise (e : exn).

Arguments Next {A} a.
Arguments Return {A}.
Arguments Raise {A} e.

Definition M (A : Type) : Type := World → completion A * World.

#[global] Instance M_ret : MRet M := λ A a w, (Next a, w).

#[global] Instance M_bind : MBind M := λ A B k m w,
  match m w with
  | (Next a, w1) => k a w1
  | (Return, w1) => (Return, w1)
  | (Raise e, w1) => (Raise e, w1)
  end.

Definition pass : M unit := mret tt.

Definition return_ {A} : M A := λ w, (Return, w).

Definition raise {A} (e : exn) : M A := λ w, (Raise e, w).

(** [try: body / except <matching>: handler]. *)
Definition try_except {A} (body : M A) (catches : exn → bool)
    (handler : exn → M A) : M A := λ w,
  match body w with
  | (Raise e, w1) => if catches e then handler e w1 else (Raise e, w1)
  | other => other
  end.

(** A call to a function defined outside the module: it leaves the store in
    some state and either returns or raises; the log keeps the call and how
    it ended. *)
Definition extern (c : call) (f : DB → option exn * DB) : M unit := λ w,
  let r := f (db w) in
  (match r.1 with Some e => Raise e | None => Next tt end,
   mkWorld r.2 (held w) (log w ++ [Called c r.1])).

(** A call to an outside function that only reads the store. *)
Definition extern_read {A} (c : call) (f : DB → exn + A) : M A := λ w,
  match f (db w) with
  | inl e => (Raise e, mkWorld (db w) (held w) (log w ++ [Called c (Some e)]))
  | inr a => (Next a, mkWorld (db w) (held w) (log w ++ [Called c None]))
  end.

(** What the caller of a function observes. *)
Inductive outcome :=
  | Returned
  | Raised (e : exn).

(** One execution of a function body, by a worker that holds no lock yet. *)
Definition exec {A} (body : M A) (d : DB) : outcome * World :=
  match body (mkWorld d ∅ []) with
  | (Raise e, w) => (Raised e, w)
  | (_, w) => (Returned, w)
  end.

End Py.

Export Py.

(** ** The ORM operations the module uses *)

Module Orm.

(** [User.objects.filter(id=user_id).exists()]. *)
Definition User_exists (user_id : Z) : M bool := λ w,
  (Next (bool_decide (user_id ∈ auth_user (db w))), w).

(** [ConcurrentUsageCalculationTask.objects.get(task_id=task_id)]. *)
Definition ConcurrentUsageCalculationTask_get (task_id : string)
    : M ConcurrentUsageCalculationTask := λ w,
  let found := calculation_tasks (db w) !! task_id in
  let w1 := mkWorld (db w) (held w) (log w ++ [TaskRead task_id found]) in
  match found with
  | Some row => (Next row, w1)
  | None => (Raise (DoesNotExist TaskModel), w1)
  end.

(** [calculation_task.save()]: the in-memory row is written under its key. *)
Definition ConcurrentUsageCalculationTask_save (task_id : string)
    (row : ConcurrentUsageCalculationTask) : M unit := λ w,
  (Next tt,
   mkWorld (set_calculation_tasks (insert task_id row) (db w)) (held w)
           (log w ++ [TaskSaved task_id row])).

(** [ConcurrentUsageCalculationTask.objects.filter(task_id=task_id)
    .update(status=s)]: a bulk update of the matching rows, none if the key
    is absent. *)
Definition update_status (task_id : string) (s : status) (d : DB) : DB :=
  set_calculation_tasks (alter (with_status s) task_id) d.

Definition ConcurrentUsageCalculationTask_filter_update (task_id : string)
    (s : status) : M unit := λ w,
  (Next tt,
   mkWorld (update_status task_id s (db w)) (held w)
           (log w ++ [TaskStatusUpdated task_id s])).

(** [cloud_account.user]: the account object carries the id of its user;
    the row itself is fetched when the attribute is read. *)
Definition CloudAccount_user (cloud_account : CloudAccount) : M Z := λ w,
  if bool_decide (account_user_id cloud_account ∈ auth_user (db w))
  then (Next (account_user_id cloud_account), w)
  else (Raise (DoesNotExist UserModel), w).

(** [cloud_account.refresh_from_db()]. *)
Definition CloudAccount_refresh_from_db (cloud_account : CloudAccount)
    : M unit := λ w,
  match cloud_accounts (db w) !! account_id cloud_account with
  | Some _ => (Next tt, w)
  | None => (Raise (DoesNotExist CloudAccountModel), w)
  end.

(** [Instance.objects.get(id=id)]. *)
Definition Instance_get (id : Z) : M Z := λ w,
  if bool_decide (id ∈ instances (db w)) then (Next id, w)
  else (Raise (DoesNotExist InstanceModel), w).

(** [Run(...).save()] of a new object: one more row. *)
Definition Run_save (r : Run) : M unit := λ w,
  (Next tt,
   mkWorld (set_runs (λ rs, rs ++ [r]) (db w)) (held w)
           (log w ++ [RunSaved r])).

End Orm.

Export Orm.

(** ** Task Lock Manager *)

Section LockManager.

(** How waiting for the locks of [ids] ends when the store is [d]: with a
    failure (the timeout), or with the lock free and the store as the other
    workers left it meanwhile. *)
Variable lock_wait : gset Z → DB → exn + DB.

(** Modelled from the spec: [util.misc.lock_task_for_user_ids], the context
    manager behind [with lock_task_for_user_ids(...)], is not among the
    sources.  Following the Task Lock Manager contract: acquisition blocks
    until the locks are free or the timeout elapses, a timeout is a failure
    raised to the caller, the identifiers are put in canonical order (a
    finite set here), and the locks are released on every exit path of the
    block: fall through, [return] and exception alike. *)
Definition lock_task_for_user_ids {A} (user_ids : list Z) (body : M A)
    : M A := λ w,
  let ids : gset Z := list_to_set user_ids in
  match lock_wait ids (db w) with
  | inl e => (Raise e, w)
  | inr d1 =>
      let r := body (mkWorld d1 (held w ∪ ids) (log w ++ [LockAcquired ids])) in
      (r.1, mkWorld (db r.2) (held r.2 ∖ ids) (log r.2 ++ [LockReleased ids]))
  end.

End LockManager.

(** ** [calculate_max_concurrent_usage_task] *)

Section CalculationTask.

Variable lock_wait : gset Z → DB → exn + DB.

(** [api.util.calculate_max_concurrent_usage] and
    [api.util.schedule_concurrent_calculation_task] are defined outside the
    module: any store transformer that may raise. *)
Variable calculate_max_concurrent_usage : Z → Z → DB → option exn * DB.
Variable schedule_concurrent_calculation_task :
  Z → Z → DB → option exn * DB.

(** The body of the outer [try]: the [with] block.  [date] is the argument
    after [date_parser.parse(date).date()]; logging is not modelled. *)
Definition locked_calculation (task_id : string) (date user_id : Z)
    : M unit :=
  lock_task_for_user_ids lock_wait [user_id] (
    calculation_task ←
      try_except (ConcurrentUsageCalculationTask_get task_id)
        (λ e, bool_decide (e = DoesNotExist TaskModel))
        (λ _, extern (Schedule date user_id)
                (schedule_concurrent_calculation_task date user_id) ;;
              return_);
    (if bool_decide (task_status calculation_task ≠ SCHEDULED)
     then return_ else pass) ;;
    extern (Calculate date user_id)
      (calculate_max_concurrent_usage date user_id) ;;
    ConcurrentUsageCalculationTask_save task_id
      (with_status COMPLETE calculation_task) ;;
    return_).

Definition calculate_max_concurrent_usage_task (task_id : string)
    (date user_id : Z) : M unit :=
  user_found ← User_exists user_id;
  (if negb user_found then return_ else pass) ;;
  try_except (locked_calculation task_id date user_id) (λ _, true)
    (λ unknown_exception,
       ConcurrentUsageCalculationTask_filter_update task_id ERROR ;;
       raise unknown_exception).

End CalculationTask.

(** ** [_delete_cloud_accounts] *)

Section DeleteCloudAccounts.

Variable lock_wait : gset Z → DB → exn + DB.

(** [CloudAccount.objects.filter(id=id).delete()]: the deletion runs the
    cascades and signal handlers of other modules, so it is any store
    transformer that may raise. *)
Variable CloudAccount_filter_delete : Z → DB → option exn * DB.

(** The [for] loop.  The argument of [lock_task_for_user_ids],
    [[cloud_account.user.id]], is evaluated before the [with] block is
    entered and outside the [try]. *)
Fixpoint _delete_cloud_accounts (cloud_accounts : list CloudAccount)
    : M unit :=
  match cloud_accounts with
  | [] => pass
  | cloud_account :: rest =>
      user ← CloudAccount_user cloud_account;
      lock_task_for_user_ids lock_wait [user] (
        try_except
          (CloudAccount_refresh_from_db cloud_account ;;
           extern (DeleteAccount (account_id cloud_account))
             (CloudAccount_filter_delete (account_id cloud_account)))
          (λ e, bool_decide (e = DoesNotExist CloudAccountModel))
          (λ _, pass)) ;;
      _delete_cloud_accounts rest
  end.

End DeleteCloudAccounts.

(** ** [process_instance_event] *)

Section ProcessInstanceEvent.

(** [api.util.recalculate_runs], [api.util.normalize_runs] and
    [api.util.calculate_max_concurrent_usage_from_runs] are defined outside
    the module. *)
Variable recalculate_runs : InstanceEvent → DB → option exn * DB.
Variable normalize_runs : list InstanceEvent → DB → exn + list NormalizedRun.
Variable calculate_max_concurrent_usage_from_runs :
  list Run → DB → option exn * DB.

(** The three [Q] objects; a comparison with a null [end_time] selects
    nothing. *)
Definition after_run (at_ : Z) (r : Run) : bool :=
  bool_decide (at_ < start_time r).

Definition during_run (at_ : Z) (r : Run) : bool :=
  bool_decide (start_time r ≤ at_) &&
  match end_time r with
  | Some e => bool_decide (at_ < e)
  | None => false
  end.

Definition during_run_no_end (at_ : Z) (r : Run) : bool :=
  bool_decide (start_time r ≤ at_) && bool_decide (end_time r = None).

Definition filters (at_ : Z) (r : Run) : bool :=
  after_run at_ r || during_run at_ r || during_run_no_end at_ r.

(** The event falls at or before the start of, or within, the run, which is
    a run of the event's instance. *)
Definition touches (event : InstanceEvent) (run : Run) : Prop :=
  run_instance_id run = instance_id event ∧
  (occurred_at event < start_time run ∨
   (start_time run ≤ occurred_at event ∧
    ∃ e, end_time run = Some e ∧ occurred_at event < e) ∨
   (start_time run ≤ occurred_at event ∧ end_time run = None)).

(** [Run.objects.filter(q, instance=instance).exists()]. *)
Definition Run_filter_exists (q : Run → bool) (instance : Z) : M bool :=
  λ w,
  (Next (existsb (λ r, q r && bool_decide (run_instance_id r = instance))
           (runs (db w))), w).

(** [Run(start_time=normalized_run.start_time, ...)]. *)
Definition Run_of (normalized_run : NormalizedRun) : Run :=
  mkRun (nr_start_time normalized_run) (nr_end_time normalized_run)
        (nr_image_id normalized_run) (nr_instance_id normalized_run)
        (nr_instance_type normalized_run)
        (nr_instance_memory normalized_run)
        (nr_instance_vcpu normalized_run).

(** The [for] loop over the normalized runs; [saved] is the list [runs] the
    loop appends to. *)
Fixpoint save_normalized_runs (normalized_runs : list NormalizedRun)
    (saved : list Run) : M (list Run) :=
  match normalized_runs with
  | [] => mret saved
  | normalized_run :: rest =>
      let run := Run_of normalized_run in
      Run_save run ;;
      save_normalized_runs rest (saved ++ [run])
  end.

(** The [elif]/implicit [else] of [process_instance_event]: what happens to
    an event that touches no persisted run. *)
Definition process_fresh_tail (event : InstanceEvent) : M unit :=
  if bool_decide (event_type event = power_on) then
    normalized_runs ←
      extern_read (Normalize [event]) (normalize_runs [event]);
    saved ← save_normalized_runs normalized_runs [];
    extern (CalculateFromRuns saved)
      (calculate_max_concurrent_usage_from_runs saved)
  else pass.

Definition process_instance_event (event : InstanceEvent) : M unit :=
  instance ← Instance_get (instance_id event);
  touched ← Run_filter_exists (filters (occurred_at event)) instance;
  if (touched : bool) then extern (Recalculate event) (recalculate_runs event)
  else process_fresh_tail event.

End ProcessInstanceEvent.

(** ** Reading a log *)

Module Log.

(** The effect writes status [s] into the row of [task_id]. *)
Definition writes_status (task_id : string) (s : status) (ev : effect)
    : bool :=
  match ev with
  | TaskSaved t row => bool_decide (t = task_id ∧ task_status row = s)
  | TaskStatusUpdated t s' => bool_decide (t = task_id ∧ s' = s)
  | _ => false
  end.

Definition status_written (task_id : string) (s : status) (l : list effect)
    : bool :=
  existsb (writes_status task_id s) l.

Definition is_call (p : call → bool) (ev : effect) : bool :=
  match ev with
  | Called c _ => p c
  | _ => false
  end.

(** Some call selected by [p] was made, however it ended. *)
Definition invoked (p : call → bool) (l : list effect) : bool :=
  existsb (is_call p) l.

Definition is_Schedule (c : call) : bool :=
  match c with Schedule _ _ => true | _ => false end.

Definition is_Calculate (c : call) : bool :=
  match c with Calculate _ _ => true | _ => false end.

Definition is_Recalculate (c : call) : bool :=
  match c with Recalculate _ => true | _ => false end.

(** The log of an execution that took the lock of [user_id]: what happened
    inside the [with] block, and what happened after it. *)
Definition under_lock (user_id : Z) (inside after : list effect)
    : list effect :=
  LockAcquired {[user_id]} :: inside ++ LockReleased {[user_id]} :: after.

End Log.

Export Log.

(** ** The paths through the task *)

Section TaskPaths.

Variable lock_wait : gset Z → DB → exn + DB.
Variable calculate_max_concurrent_usage : Z → Z → DB → option exn * DB.
Variable schedule_concurrent_calculation_task :
  Z → Z → DB → option exn * DB.
Variables (task_id : string) (date user_id : Z).

(** [task_path d r w]: from store [d], the delivery of [task_id] for
    [(date, user_id)] ends as [r] in world [w].  One constructor per path
    through the source; [exec_task_path] below shows every execution is one
    of them. *)
Inductive task_path (d : DB) : outcome → World → Prop :=
  | path_skip :
      user_id ∉ auth_user d →
      task_path d Returned (mkWorld d ∅ [])
  | path_timeout e :
      user_id ∈ auth_user d →
      lock_wait {[user_id]} d = inl e →
      task_path d (Raised e)
        (mkWorld (update_status task_id ERROR d) ∅
           [TaskStatusUpdated task_id ERROR])
  | path_reschedule d1 d2 :
      user_id ∈ auth_user d →
      lock_wait {[user_id]} d = inr d1 →
      calculation_tasks d1 !! task_id = None →
      schedule_concurrent_calculation_task date user_id d1 = (None, d2) →
      task_path d Returned
        (mkWorld d2 ∅
           (under_lock user_id
              [TaskRead task_id None; Called (Schedule date user_id) None]
              []))
  | path_reschedule_raises d1 d2 e :
      user_id ∈ auth_user d →
      lock_wait {[user_id]} d = inr d1 →
      calculation_tasks d1 !! task_id = None →
      schedule_concurrent_calculation_task date user_id d1 = (Some e, d2) →
      task_path d (Raised e)
        (mkWorld (update_status task_id ERROR d2) ∅
           (under_lock user_id
              [TaskRead task_id None;
               Called (Schedule date user_id) (Some e)]
              [TaskStatusUpdated task_id ERROR]))
  | path_not_scheduled d1 row :
      user_id ∈ auth_user d →
      lock_wait {[user_id]} d = inr d1 →
      calculation_tasks d1 !! task_id = Some row →
      task_status row ≠ SCHEDULED →
      task_path d Returned
        (mkWorld d1 ∅ (under_lock user_id [TaskRead task_id (Some row)] []))
  | path_complete d1 d2 row :
      user_id ∈ auth_user d →
      lock_wait {[user_id]} d = inr d1 →
      calculation_tasks d1 !! task_id = Some row →
      task_status row = SCHEDULED →
      calculate_max_concurrent_usage date user_id d1 = (None, d2) →
      task_path d Returned
        (mkWorld
           (set_calculation_tasks
              (insert task_id (with_status COMPLETE row)) d2) ∅
           (under_lock user_id
              [TaskRead task_id (Some row);
               Called (Calculate date user_id) None;
               TaskSaved task_id (with_status COMPLETE row)] []))
  | path_calculation_raises d1 d2 row e :
      user_id ∈ auth_user d →
      lock_wait {[user_id]} d = inr d1 →
      calculation_tasks d1 !! task_id = Some row →
      task_status row = SCHEDULED →
      calculate_max_concurrent_usage date user_id d1 = (Some e, d2) →
      task_path d (Raised e)
        (mkWorld (update_status task_id ERROR d2) ∅
           (under_lock user_id
              [TaskRead task_id (Some row);
               Called (Calculate date user_id) (Some e)]
              [TaskStatusUpdated task_id ERROR])).

End TaskPaths.

(** ** Concrete deliveries *)

Module Scenario.

(** 2024-01-01 as a day ordinal. *)
Definition new_year : Z := 738886.

Definition lock_free : gset Z → DB → exn + DB := λ _ d, inr d.

Definition lock_times_out : gset Z → DB → exn + DB := λ _ _, inl LockTimeout.

(** A calculator that stores a snapshot of one instance with 2 vcpu and
    4 GB. *)
Definition calculator : Z → Z → DB → option exn * DB := λ date user_id d,
  (None,
   mkDB (auth_user d) (calculation_tasks d)
     (<[(user_id, date) := mkUsage 1 2 4]> (concurrent_usage d))
     (cloud_accounts d) (instances d) (runs d)).

Definition calculator_fails : Z → Z → DB → option exn * DB := λ _ _ d,
  (Some (OtherError "database is down"), d).

(** A scheduler that records a new task under a fresh identifier. *)
Definition scheduler : Z → Z → DB → option exn * DB := λ date user_id d,
  (None,
   set_calculation_tasks (insert "task-2" (mkTask user_id date SCHEDULED)) d).

Definition scheduler_fails : Z → Z → DB → option exn * DB := λ _ _ d,
  (Some (OtherError "broker unreachable"), d).

(** User 1 and the given task table. *)
Definition store (tasks : gmap string ConcurrentUsageCalculationTask) : DB :=
  mkDB {[1]} tasks ∅ ∅ ∅ [].

Definition task_in (s : status) : gmap string ConcurrentUsageCalculationTask :=
  {["task-1" := mkTask 1 new_year s]}.

(** An account deletion that removes the row. *)
Definition deleter : Z → DB → option exn * DB := λ id d,
  (None,
   mkDB (auth_user d) (calculation_tasks d) (concurrent_usage d)
     (delete id (cloud_accounts d)) (instances d) (runs d)).

Definition deleter_fails : Z → DB → option exn * DB := λ _ d,
  (Some (OtherError "cloud trail cannot be disabled"), d).

(** Account 10 of user 1. *)
Definition account_store : DB := mkDB {[1]} ∅ ∅ {[10 := 1]} ∅ [].

(** Instance 7 of user 1 with the given persisted runs. *)
Definition instance_store (rs : list Run) : DB := mkDB {[1]} ∅ ∅ ∅ {[7]} rs.

(** Instance 7 on from 10:00 to 12:00 (seconds of the day). *)
Definition morning_run : Run := mkRun 36000 (Some 43200) 3 7 "t2.micro" 4 2.

Definition recalculator : InstanceEvent → DB → option exn * DB := λ _ d,
  (None, d).

(** A normalizer for lone power-on events: one open run each. *)
Definition normalizer : list InstanceEvent → DB → exn + list NormalizedRun :=
  λ evs _,
  inr ((λ ev, mkNormalizedRun (occurred_at ev) None 3 (instance_id ev)
                "t2.micro" 4 2) <$> evs).

Definition usage_from_runs : list Run → DB → option exn * DB := λ _ d,
  (None, d).

End Scenario.

(** ** The dedup rules as unconditional promises *)

Section Promises.

Variable lock_wait : gset Z → DB → exn + DB.
Variable calculate_max_concurrent_usage : Z → Z → DB → option exn * DB.
Variable schedule_concurrent_calculation_task :
  Z → Z → DB → option exn * DB.
Variables (task_id : string) (date user_id : Z).

(** "Re-enter the Scheduler and exit without computing": the delivery
    returns, having called the scheduler and not the calculator. *)
Definition reschedules_and_returns (d : DB) : Prop :=
  ∀ r w,
    exec (calculate_max_concurrent_usage_task lock_wait
            calculate_max_concurrent_usage
            schedule_concurrent_calculation_task task_id date user_id) d
      = (r, w) →
    r = Returned ∧ invoked is_Schedule (log w) = true ∧
    invoked is_Calculate (log w) = false.

(** "Skip computation silently and return": the delivery returns, the
    calculator is not called and the status of the row is what it was. *)
Definition skips_silently (d : DB) : Prop :=
  ∀ r w,
    exec (calculate_max_concurrent_usage_task lock_wait
            calculate_max_concurrent_usage
            schedule_concurrent_calculation_task task_id date user_id) d
      = (r, w) →
    r = Returned ∧ invoked is_Calculate (log w) = false ∧
    task_status <$> calculation_tasks (db w) !! task_id =
    task_status <$> calculation_tasks d !! task_id.

End Promises.

(** ** The callers of [_delete_cloud_accounts] *)

Section DeleteCallers.

Variable lock_wait : gset Z → DB → exn + DB.
Variable CloudAccount_filter_delete : Z → DB → option exn * DB.

(** [sources.extract_ids_from_kafka_message] is defined outside the module:
    the account number and the platform id it finds, either of which may be
    [None]. *)
Variable extract_ids_from_kafka_message :
  gmap string Z → list (string * string) → option string * option Z.

(** [CloudAccount.objects.filter(Q(platform_application_id=...,
    platform_authentication_id=...))]: the platform columns are not part of
    the store record, so the rows the query selects are given by the
    caller. *)
Variable CloudAccount_filter_platform : Z → Z → DB → list CloudAccount.

(** [CloudAccount.objects.filter(id=cloud_account_id)], evaluated when the
    loop starts iterating: the row with that key, if there is one. *)
Definition CloudAccount_filter_id (cloud_account_id : Z)
    : M (list CloudAccount) := λ w,
  (Next match cloud_accounts (db w) !! cloud_account_id with
        | Some user_id => [mkAccount cloud_account_id user_id]
        | None => []
        end, w).

Definition delete_cloud_account (cloud_account_id : Z) : M unit :=
  selected ← CloudAccount_filter_id cloud_account_id;
  _delete_cloud_accounts lock_wait CloudAccount_filter_delete selected.

(** [message[key]]: a missing key is a [KeyError]. *)
Definition message_item (message : gmap string Z) (key : string) : M Z :=
  λ w,
  match message !! key with
  | Some v => (Next v, w)
  | None => (Raise (OtherError ("KeyError: " +:+ key)), w)
  end.

Definition delete_from_sources_kafka_message (message : gmap string Z)
    (headers : list (string * string)) : M unit :=
  let ids := extract_ids_from_kafka_message message headers in
  (if bool_decide (ids.1 = None ∨ ids.2 = None) then return_ else pass) ;;
  authentication_id ← message_item message "authentication_id";
  application_id ← message_item message "application_id";
  selected ← (λ w, (Next (CloudAccount_filter_platform application_id
                            authentication_id (db w)), w)) ;
  _delete_cloud_accounts lock_wait CloudAccount_filter_delete selected.

End DeleteCallers.

(** What the deletion loop may do with a list of accounts: take and release
    the lock of a listed account's user, and delete a listed account. *)
Definition deletion_effect (accounts : list CloudAccount) (ev : effect)
    : Prop :=
  match ev with
  | LockAcquired ids | LockReleased ids =>
      ∃ a, a ∈ accounts ∧ ids = {[account_user_id a]}
  | Called (DeleteAccount id) _ => ∃ a, a ∈ accounts ∧ account_id a = id
  | _ => False
  end.

(** ** [util/exceptions.py]: the exception classes and the API handler *)

Module Handler.

(** The classes the handler tests for, their library bases, the classes the
    file defines, and [Subclass] for any class derived from one of them
    elsewhere (with the [status_code] it sets, if it sets one).  Classes
    have one base each, as all classes of the file do. *)
Inductive exception_class :=
  | Exception
  | RuntimeError
  | NotImplementedError
  | Http404
  | PermissionDenied
  | APIException
  | NotFound
  | ParseError
  | DrfPermissionDenied
  | InvalidArn
  | NotReadyException
  | AwsSnapshotCopyLimitError
  | AwsSnapshotNotOwnedError
  | AwsSnapshotOwnedError
  | ImageNotReadyException
  | SnapshotNotReadyException
  | AwsImageError
  | AwsSnapshotError
  | AwsVolumeNotReadyError
  | AwsVolumeError
  | AwsAutoScalingGroupNotFound
  | AwsNonZeroAutoScalingGroupSize
  | AwsECSInstanceNotReady
  | AwsTooManyECSInstances
  | MaximumNumberOfTrailsExceededException
  | InvalidHoundigradeJsonFormat
  | CloudTrailCannotStopLogging
  | NormalizeRunException
  | NotImplementedAPIException
  | AwsPolicyCreationException
  | Subclass (name : string) (base : exception_class) (status : option Z).

#[global] Instance exception_class_eq_dec : EqDecision exception_class.
Proof. solve_decision. Defined.

(** The base named in each [class] statement. *)
Definition base (c : exception_class) : option exception_class :=
  match c with
  | Exception => None
  | NotImplementedError => Some RuntimeError
  | NotFound | ParseError | DrfPermissionDenied
  | MaximumNumberOfTrailsExceededException | CloudTrailCannotStopLogging
  | NormalizeRunException | NotImplementedAPIException => Some APIException
  | InvalidArn => Some ParseError
  | AwsSnapshotCopyLimitError | AwsSnapshotNotOwnedError
  | AwsSnapshotOwnedError | ImageNotReadyException
  | SnapshotNotReadyException | AwsVolumeNotReadyError
  | AwsECSInstanceNotReady | AwsTooManyECSInstances => Some NotReadyException
  | Subclass _ b _ => Some b
  | _ => Some Exception
  end.

(** The class and its bases, nearest first.  The named classes are at most
    three steps below [Exception]. *)
Definition named_mro (c : exception_class) : list exception_class :=
  c :: match base c with
       | None => []
       | Some b1 =>
           b1 :: match base b1 with
                 | None => []
                 | Some b2 =>
                     b2 :: match base b2 with
                           | None => []
                           | Some b3 => [b3]
                           end
                 end
       end.

Fixpoint mro (c : exception_class) : list exception_class :=
  match c with
  | Subclass _ b _ => c :: mro b
  | _ => named_mro c
  end.

Definition issubclass (c k : exception_class) : bool :=
  bool_decide (k ∈ mro c).

(** The four classes the handler tests for. *)
Definition tested (k : exception_class) : Prop :=
  k = Http404 ∨ k = PermissionDenied ∨ k = NotImplementedError ∨
  k = APIException.

(** [status_code] as set in the body of the class: by the file, or by
    Django REST framework for its own classes. *)
Definition own_status_code (c : exception_class) : option Z :=
  match c with
  | APIException => Some 500
  | NotFound => Some 404
  | ParseError => Some 400
  | DrfPermissionDenied => Some 403
  | MaximumNumberOfTrailsExceededException => Some 409
  | CloudTrailCannotStopLogging => Some 500
  | NormalizeRunException => Some 500
  | NotImplementedAPIException => Some 501
  | Subclass _ _ s => s
  | _ => None
  end.

(** Attribute lookup along the bases. *)
Definition status_code (c : exception_class) : option Z :=
  list_find is_Some (own_status_code <$> mro c) ≫= snd.

(** An exception object: its class, and the detail it was raised with
    ([None] when raised without, so that the class default applies). *)
Record exception := mkException {
  class_of : exception_class;
  detail : option string
}.

Definition isinstance (exc : exception) (k : exception_class) : bool :=
  issubclass (class_of exc) k.

(** The response: status and what the body's detail is taken from. *)
Record Response := mkResponse {
  response_status : Z;
  response_class : exception_class;
  response_detail : option string
}.

(** [rest_framework.views.exception_handler]: a response for API
    exceptions (and for the two Django exceptions it translates itself),
    [None] for anything else. *)
Definition exception_handler (exc : exception) : option Response :=
  let exc :=
    if isinstance exc Http404 then mkException NotFound (detail exc)
    else if isinstance exc PermissionDenied
    then mkException DrfPermissionDenied (detail exc)
    else exc in
  if isinstance exc APIException then
    s ← status_code (class_of exc);
    Some (mkResponse s (class_of exc) (detail exc))
  else None.

(** [api_exception_handler]: whether the exception was logged, and the
    response. *)
Definition api_exception_handler (exc : exception) : bool * option Response :=
  let '(logged, exc) :=
    if isinstance exc Http404 then (false, mkException NotFound None)
    else if isinstance exc PermissionDenied
    then (false, mkException DrfPermissionDenied None)
    else if isinstance exc NotImplementedError
    then (true, mkException NotImplementedAPIException None)
    else if negb (isinstance exc APIException)
    then (true, mkException APIException None)
    else (false, exc) in
  (logged, exception_handler exc).

End Handler.

(** ** [persist_inspection_cluster_results_task] *)

Module Inspection.

(** An SQS message as the task reads it. *)
Record Message := mkMessage {
  message_id : string;
  body : string
}.

(** What the task asks of other modules, in order, and how each call
    ended. *)
Inductive action :=
  | Persisted (m : Message) (raised : option exn)
  | Deleted (m : Message) (raised : option exn)
  | ScaledDown (raised : option exn).

Section Task.

(** The state of what lies outside the module: the store and the queue. *)
Variable S : Type.

(** [json.loads(message.body).get(CLOUD_KEY)]: the cloud type a body names
    ([None] when the key is absent); it raises when the body is not a JSON
    object. *)
Variable cloud_of : string → exn + option string.
Variable CLOUD_TYPE_AWS : string.

(** [persist_aws_inspection_cluster_results], [aws.delete_messages_from_queue]
    and [scale_down_cluster.delay] are defined outside the module. *)
Variable persist_aws_inspection_cluster_results : string → S → option exn * S.
Variable delete_messages_from_queue : list Message → S → option exn * S.
Variable scale_down_cluster_delay : S → option exn * S.

(** The two lists the loop fills, what it has done so far, and the state. *)
Record Progress := mkProgress {
  successes : list Message;
  failures : list Message;
  actions : list action;
  state : S
}.

(** The [for] loop over the messages the queue yields. *)
Fixpoint process_messages (messages : list Message) (p : Progress)
    : option exn * Progress :=
  match messages with
  | [] => (None, p)
  | message :: rest =>
      match cloud_of (body message) with
      | inl e => (Some e, p)
      | inr cloud =>
          if bool_decide (cloud = Some CLOUD_TYPE_AWS) then
            let persisted :=
              persist_aws_inspection_cluster_results (body message)
                (state p) in
            match persisted.1 with
            | Some e =>
                process_messages rest
                  (mkProgress (successes p) (failures p ++ [message])
                     (actions p ++ [Persisted message (Some e)])
                     persisted.2)
            | None =>
                let deleted :=
                  delete_messages_from_queue [message] persisted.2 in
                let done :=
                  actions p ++ [Persisted message None;
                                Deleted message deleted.1] in
                match deleted.1 with
                | Some e =>
                    (Some e,
                     mkProgress (successes p) (failures p) done deleted.2)
                | None =>
                    process_messages rest
                      (mkProgress (successes p ++ [message]) (failures p)
                         done deleted.2)
                end
            end
          else
            process_messages rest
              (mkProgress (successes p) (failures p ++ [message])
                 (actions p) (state p))
      end
  end.

(** The body of the task, from the first message on, in a run in which
    [aws.yield_messages_from_queue] yields [messages]: the pair it returns
    or the exception that leaves it, what it did, and the state it leaves.
    [aws.get_sqs_queue_url], the generator and the decorator
    [aws.rewrap_aws_errors] are defined outside the module; the decorator
    may replace an exception that leaves the body by another. *)
Definition persist_inspection_cluster_results_task
    (messages : list Message) (s : S)
    : (exn + list Message * list Message) * list action * S :=
  let r := process_messages messages (mkProgress [] [] [] s) in
  let p := r.2 in
  match r.1 with
  | Some e => (inl e, actions p, state p)
  | None =>
      if bool_decide (successes p ≠ [] ∨ failures p ≠ []) then
        let scaled := scale_down_cluster_delay (state p) in
        (match scaled.1 with
         | Some e => inl e
         | None => inr (successes p, failures p)
         end, actions p ++ [ScaledDown scaled.1], scaled.2)
      else (inr (successes p, failures p), actions p, state p)
  end.

End Task.

(** The messages whose deletion from the queue went through. *)
Definition deleted_messages (acts : list action) : list Message :=
  omap (λ a, match a with Deleted m None => Some m | _ => None end) acts.

(** The messages handed to the persister. *)
Definition persisted_messages (acts : list action) : list Message :=
  omap (λ a, match a with Persisted m _ => Some m | _ => None end) acts.

Definition scaled_down (acts : list action) : bool :=
  existsb (λ a, match a with ScaledDown _ => true | _ => false end) acts.

(** What one run of the loop adds to the progress [p] it starts from:
    [finished] tells whether the loop went through all the messages. *)
Inductive added {S} (cloud_of : string → exn + option string)
    (CLOUD_TYPE_AWS : string) (messages : list Message) (p p' : Progress S)
    (finished : bool) : Prop :=
  | mkAdded (new_successes new_failures : list Message)
      (new_actions : list action) :
      successes S p' = successes S p ++ new_successes →
      failures S p' = failures S p ++ new_failures →
      actions S p' = actions S p ++ new_actions →
      new_successes `sublist_of` messages →
      new_failures `sublist_of` messages →
      (finished = true → new_successes ++ new_failures ≡ₚ messages) →
      deleted_messages new_actions = new_successes →
      new_successes `sublist_of` persisted_messages new_actions →
      Forall (λ m, m ∈ messages ∧
                   cloud_of (body m) = inr (Some CLOUD_TYPE_AWS))
        (persisted_messages new_actions) →
      scaled_down new_actions = false →
      added cloud_of CLOUD_TYPE_AWS messages p p' finished.

End Inspection.

(** A results queue for the examples: a body is either unreadable or names
    its cloud type, and the queue refuses to delete the message with id 4. *)
Module Queue.

Import Inspection.

Definition AWS : string := "aws".

Definition cloud_of (b : string) : exn + option string :=
  if bool_decide (b = "{") then inl (OtherError "JSONDecodeError")
  else if bool_decide (b = "{}") then inr None
  else inr (Some b).

(** The state is the list of the bodies persisted so far. *)
Definition persist (b : string) (s : list string)
    : option exn * list string :=
  (None, s ++ [b]).

Definition delete (ms : list Message) (s : list string)
    : option exn * list string :=
  match ms with
  | m :: _ =>
      if bool_decide (message_id m = "4")
      then (Some (OtherError "ClientError"), s) else (None, s)
  | [] => (None, s)
  end.

Definition scale_down (s : list string) : option exn * list string :=
  (None, s).

Definition from_aws : Message := mkMessage "1" "aws".
Definition from_azure : Message := mkMessage "2" "azure".
Definition unreadable : Message := mkMessage "3" "{".
Definition stuck : Message := mkMessage "4" "aws".

End Queue.

(** ** [_delete_user] and [delete_inactive_users] *)

Module Users.

(** A call of [user.delete()]: the user and the store the call found. *)
Record Deletion := mkDeletion {
  deleted_user : Z;
  store_before : DB
}.

Section Task.

(** The columns of [auth_user] the task filters on; the store keeps the ids
    only. *)
Variable is_superuser : Z → bool.
Variable date_joined : Z → Z.

(** [get_now()] and [settings.DELETE_INACTIVE_USERS_MIN_AGE], in seconds. *)
Variable now : Z.
Variable DELETE_INACTIVE_USERS_MIN_AGE : Z.

(** [user.delete()] is Django's: the number of rows it deleted and the store
    it leaves, or the exception it raises. *)
Variable User_delete : Z → DB → exn + Z * DB.

(** [CloudAccount.objects.filter(user_id=user.id).exists()]. *)
Definition CloudAccount_filter_user_exists (user_id : Z) (d : DB) : bool :=
  bool_decide
    (Exists (λ row, row.2 = user_id) (map_to_list (cloud_accounts d))).

(** What the function returns or raises, the deletion it asked for, and the
    store it leaves; [transaction.atomic] undoes what a raising deletion
    did. *)
Definition _delete_user (user : Z) (d : DB)
    : (exn + bool) * list Deletion * DB :=
  if CloudAccount_filter_user_exists user d then (inr false, [], d)
  else
    match User_delete user d with
    | inl e => (inl e, [mkDeletion user d], d)
    | inr (count, d') =>
        (inr (bool_decide (0 < count)), [mkDeletion user d], d')
    end.

(** [User.objects.filter(is_superuser=False, date_joined__lt=...)], in the
    order the store lists the rows. *)
Definition User_filter (oldest_allowed_date_joined : Z) (d : DB) : list Z :=
  filter
    (λ user, is_superuser user = false ∧
             date_joined user < oldest_allowed_date_joined)
    (elements (auth_user d)).

(** The [for] loop over the users found. *)
Fixpoint delete_each (users : list Z) (deleted_user_count : Z) (d : DB)
    : option exn * Z * list Deletion * DB :=
  match users with
  | [] => (None, deleted_user_count, [], d)
  | user :: rest =>
      match _delete_user user d with
      | (inl e, calls, d') => (Some e, deleted_user_count, calls, d')
      | (inr deleted, calls, d') =>
          match delete_each rest
                  (if deleted then deleted_user_count + 1
                   else deleted_user_count) d' with
          | (raised, count, calls', d'') =>
              (raised, count, calls ++ calls', d'')
          end
      end
  end.

(** The exception the task raises, if any, the [deleted_user_count] it has
    reached, the deletions it asked for, and the store it leaves. *)
Definition delete_inactive_users (d : DB)
    : option exn * Z * list Deletion * DB :=
  let oldest_allowed_date_joined := now - DELETE_INACTIVE_USERS_MIN_AGE in
  let users := User_filter oldest_allowed_date_joined d in
  delete_each users 0 d.

End Task.

(** Users for the examples: 1 is a superuser, 2 owns cloud account 20,
    3 joined at 95 and 4 at 10; deleting a user removes its row. *)
Definition superuser (user : Z) : bool := bool_decide (user = 1).
Definition joined (user : Z) : Z := if bool_decide (user = 3) then 95 else 10.
Definition users_store : DB := mkDB {[1; 2; 3; 4]} ∅ ∅ {[20 := 2]} ∅ [].
Definition remove_row (user : Z) (d : DB) : exn + Z * DB :=
  inr (1, mkDB (auth_user d ∖ {[user]}) (calculation_tasks d)
            (concurrent_usage d) (cloud_accounts d) (instances d) (runs d)).

End Users.

(** ** Executions follow the paths *)

Section TaskExecution.

Variable lock_wait : gset Z → DB → exn + DB.
Variable calculate_max_concurrent_usage : Z → Z → DB → option exn * DB.
Variable schedule_concurrent_calculation_task :
  Z → Z → DB → option exn * DB.
Variables (task_id : string) (date user_id : Z).

Abbreviation task := (calculate_max_concurrent_usage_task lock_wait
  calculate_max_concurrent_usage schedule_concurrent_calculation_task
  task_id date user_id).
Abbreviation locked := (locked_calculation lock_wait
  calculate_max_concurrent_usage schedule_concurrent_calculation_task
  task_id date user_id).
Abbreviation path := (task_path lock_wait calculate_max_concurrent_usage
  schedule_concurrent_calculation_task task_id date user_id).

Ltac run_task :=
  unfold exec, calculate_max_concurrent_usage_task, locked_calculation,
    lock_task_for_user_ids, try_except, mbind, M_bind, User_exists,
    ConcurrentUsageCalculationTask_get, ConcurrentUsageCalculationTask_save,
    ConcurrentUsageCalculationTask_filter_update, extern, return_, raise,
    pass, mret, M_ret, under_lock; simpl.

Lemma released (ids : gset Z) : ((∅ : gset Z) ∪ ids) ∖ ids = ∅.
Proof. rewrite union_empty_l_L. apply difference_diag_L. Qed.

Lemma exec_task_path d : path d (exec task d).1 (exec task d).2.
Proof.
  destruct (decide (user_id ∈ auth_user d)) as [Hu|Hu].
  2: { run_task. rewrite bool_decide_eq_false_2 by done. simpl.
       by apply path_skip. }
  destruct (lock_wait {[user_id]} d) as [e|d1] eqn:Hl.
  { run_task. rewrite bool_decide_eq_true_2 by done. simpl.
    rewrite union_empty_r_L, Hl. simpl. by apply path_timeout. }
  destruct (calculation_tasks d1 !! task_id) as [row|] eqn:Ht.
  - destruct (decide (task_status row = SCHEDULED)) as [Hs|Hs].
    + destruct (calculate_max_concurrent_usage date user_id d1)
        as [[e|] d2] eqn:Hc.
      * run_task. rewrite bool_decide_eq_true_2 by done. simpl.
        rewrite union_empty_r_L, Hl. simpl. rewrite Ht. simpl.
        rewrite bool_decide_eq_false_2 by (intros Hn; apply Hn, Hs). simpl.
        rewrite Hc. simpl. rewrite ?union_empty_r_L, released.
        by eapply path_calculation_raises.
      * run_task. rewrite bool_decide_eq_true_2 by done. simpl.
        rewrite union_empty_r_L, Hl. simpl. rewrite Ht. simpl.
        rewrite bool_decide_eq_false_2 by (intros Hn; apply Hn, Hs). simpl.
        rewrite Hc. simpl. rewrite ?union_empty_r_L, released.
        by eapply path_complete.
    + run_task. rewrite bool_decide_eq_true_2 by done. simpl.
      rewrite union_empty_r_L, Hl. simpl. rewrite Ht. simpl.
      rewrite bool_decide_eq_true_2 by done. simpl.
      rewrite ?union_empty_r_L, released.
      by eapply path_not_scheduled.
  - destruct (schedule_concurrent_calculation_task date user_id d1)
      as [[e|] d2] eqn:Hs.
    + run_task. rewrite bool_decide_eq_true_2 by done. simpl.
      rewrite union_empty_r_L, Hl. simpl. rewrite Ht. simpl.
      rewrite Hs. simpl. rewrite ?union_empty_r_L, released.
      by eapply path_reschedule_raises.
    + run_task. rewrite bool_decide_eq_true_2 by done. simpl.
      rewrite union_empty_r_L, Hl. simpl. rewrite Ht. simpl.
      rewrite Hs. simpl. rewrite ?union_empty_r_L, released.
      by eapply path_reschedule.
Qed.

Lemma exec_task_inv d r w : exec task d = (r, w) → path d r w.
Proof. intros H. pose proof (exec_task_path d) as P. by rewrite H in P. Qed.

End TaskExecution.

(** ** The Calculation Task State Machine *)

Section TaskLifecycle.

Variable lock_wait : gset Z → DB → exn + DB.
Variable calculate_max_concurrent_usage : Z → Z → DB → option exn * DB.
Variable schedule_concurrent_calculation_task :
  Z → Z → DB → option exn * DB.
Variables (task_id : string) (date user_id : Z).

Abbreviation task := (calculate_max_concurrent_usage_task lock_wait
  calculate_max_concurrent_usage schedule_concurrent_calculation_task
  task_id date user_id).
Abbreviation locked := (locked_calculation lock_wait
  calculate_max_concurrent_usage schedule_concurrent_calculation_task
  task_id date user_id).

(** Two facts about the same lookup or the same call agree. *)
Ltac same_store :=
  repeat match goal with
  | H1 : ?x = _, H2 : ?x = _ |- _ => rewrite H1 in H2; simplify_eq
  end.

Lemma update_status_absent t s d :
  calculation_tasks d !! t = None → update_status t s d = d.
Proof.
  intros H. destruct d as [u ts cu ca ins rs]. unfold update_status,
    set_calculation_tasks. simpl in *. f_equal.
  apply map_eq. intros k. destruct (decide (t = k)) as [<-|Hne].
  - by rewrite lookup_alter_eq, H.
  - by rewrite lookup_alter_ne.
Qed.

Lemma update_status_lookup t s d :
  calculation_tasks (update_status t s d) !! t =
  with_status s <$> calculation_tasks d !! t.
Proof. destruct d. simpl. by rewrite lookup_alter_eq. Qed.

(** C1: the task writes COMPLETE into a row only in an execution where the
    user existed, the lock was obtained, the row was read back under the
    lock by its task identifier and found SCHEDULED, and
    [calculate_max_concurrent_usage] returned without raising; the write
    lies between the acquisition and the release of the user's lock, after
    the computation, and it is the row of the delivered identifier. *)
Theorem complete_only_after_all_checks d r w t :
  exec task d = (r, w) →
  status_written t COMPLETE (log w) = true →
  t = task_id ∧ r = Returned ∧ user_id ∈ auth_user d ∧
  ∃ d1 d2 row,
    lock_wait {[user_id]} d = inr d1 ∧
    calculation_tasks d1 !! task_id = Some row ∧
    task_status row = SCHEDULED ∧
    calculate_max_concurrent_usage date user_id d1 = (None, d2) ∧
    log w = [LockAcquired {[user_id]};
             TaskRead task_id (Some row);
             Called (Calculate date user_id) None;
             TaskSaved task_id (with_status COMPLETE row);
             LockReleased {[user_id]}].
Proof.
  intros He Hw. apply exec_task_inv in He.
  destruct He; simpl in Hw; try discriminate;
    repeat (rewrite ?orb_false_r, ?bool_decide_eq_true in Hw);
    try (destruct Hw as [_ ?]; discriminate).
  destruct Hw as [-> _]. repeat split; try done. by exists d1, d2, row.
Qed.

Lemma exec_task_raises d e w1 :
  user_id ∈ auth_user d →
  locked (mkWorld d ∅ []) = (Raise e, w1) →
  exec task d =
    (Raised e,
     mkWorld (update_status task_id ERROR (db w1)) (held w1)
       (log w1 ++ [TaskStatusUpdated task_id ERROR])).
Proof.
  intros Hu Hl.
  unfold exec, calculate_max_concurrent_usage_task, try_except, mbind,
    M_bind, User_exists, return_, pass, mret, M_ret. simpl.
  rewrite bool_decide_eq_true_2 by done. simpl. by rewrite Hl.
Qed.

(** C2: when an exception escapes the locked computation, the task records
    ERROR for the delivered identifier (the row, if there is one, keeps its
    other fields and has status ERROR afterwards) and then raises that very
    exception to its caller. *)
Theorem failure_recorded_then_reraised d e w1 :
  user_id ∈ auth_user d →
  locked (mkWorld d ∅ []) = (Raise e, w1) →
  ∃ w,
    exec task d = (Raised e, w) ∧
    log w = log w1 ++ [TaskStatusUpdated task_id ERROR] ∧
    db w = update_status task_id ERROR (db w1) ∧
    ∀ row,
      calculation_tasks (db w1) !! task_id = Some row →
      calculation_tasks (db w) !! task_id = Some (with_status ERROR row).
Proof.
  intros Hu Hl. eexists. split; [by apply exec_task_raises|].
  cbn [db log]. repeat split. intros row Hrow.
  by rewrite update_status_lookup, Hrow.
Qed.

(** C10: recording ERROR is a bulk update that always completes; when the
    row of the delivered identifier is gone by then, the store is left as
    it was, and in every case the exception that escaped the locked
    computation is the one the caller gets. *)
Theorem error_recording_never_raises d e w1 :
  user_id ∈ auth_user d →
  locked (mkWorld d ∅ []) = (Raise e, w1) →
  (ConcurrentUsageCalculationTask_filter_update task_id ERROR w1).1
    = Next tt ∧
  (exec task d).1 = Raised e ∧
  (calculation_tasks (db w1) !! task_id = None →
   db (exec task d).2 = db w1).
Proof.
  intros Hu Hl. rewrite (exec_task_raises d e w1 Hu Hl). simpl.
  repeat split. apply update_status_absent.
Qed.

(** C3, amended: once the lock is obtained and the row of the delivered
    identifier is not found, the task calls
    [schedule_concurrent_calculation_task date user_id] once, under the
    lock, and never the calculator; it writes nothing itself, so the store
    is as the scheduler left it; it returns if the scheduler returns and
    raises the scheduler's exception otherwise. *)
Theorem missing_record_is_rescheduled d d1 r w :
  user_id ∈ auth_user d →
  lock_wait {[user_id]} d = inr d1 →
  calculation_tasks d1 !! task_id = None →
  exec task d = (r, w) →
  let s := schedule_concurrent_calculation_task date user_id d1 in
  invoked is_Calculate (log w) = false ∧
  held w = ∅ ∧
  match s.1 with
  | None =>
      r = Returned ∧ db w = s.2 ∧
      log w = under_lock user_id
                [TaskRead task_id None; Called (Schedule date user_id) None]
                []
  | Some e =>
      r = Raised e ∧ db w = update_status task_id ERROR s.2 ∧
      log w = under_lock user_id
                [TaskRead task_id None;
                 Called (Schedule date user_id) (Some e)]
                [TaskStatusUpdated task_id ERROR]
  end.
Proof.
  intros Hu Hl Ht He. apply exec_task_inv in He.
  destruct He; same_store; try congruence; simpl;
    match goal with
    | H : schedule_concurrent_calculation_task _ _ _ = _ |- _ => rewrite H
    end; done.
Qed.

(** C4, amended: once the lock is obtained and the row of the delivered
    identifier is found with a status other than SCHEDULED, the task
    returns without raising, without calling the calculator and without
    writing: the store is the one it found under the lock. *)
Theorem terminal_record_is_skipped d d1 row r w :
  user_id ∈ auth_user d →
  lock_wait {[user_id]} d = inr d1 →
  calculation_tasks d1 !! task_id = Some row →
  task_status row ≠ SCHEDULED →
  exec task d = (r, w) →
  r = Returned ∧ db w = d1 ∧ held w = ∅ ∧
  log w = under_lock user_id [TaskRead task_id (Some row)] [].
Proof.
  intros Hu Hl Ht Hs He. apply exec_task_inv in He.
  destruct He; same_store; try congruence; done.
Qed.

(** C5: when the user does not exist the task returns at once: no lock is
    taken, nothing is called, read or written, and the store (task rows
    and snapshots included) is untouched. *)
Theorem missing_user_is_skipped d r w :
  user_id ∉ auth_user d →
  exec task d = (r, w) →
  r = Returned ∧ db w = d ∧ held w = ∅ ∧ log w = [].
Proof.
  intros Hu He. apply exec_task_inv in He.
  destruct He; try done.
Qed.

End TaskLifecycle.

(** ** The lifecycle on concrete deliveries *)

Section Deliveries.

Import Scenario.

Lemma complete_only_after_all_checks_witness :
  status_written "task-1" COMPLETE
    (log (exec (calculate_max_concurrent_usage_task lock_free calculator
                  scheduler "task-1" new_year 1)
            (store (task_in SCHEDULED))).2) = true ∧
  1 ∈ auth_user (store (task_in SCHEDULED)) ∧
  calculator new_year 1 (store (task_in SCHEDULED)) =
    (None,
     mkDB {[1]} (task_in SCHEDULED) {[(1, new_year) := mkUsage 1 2 4]}
       ∅ ∅ []).
Proof.
  split; [reflexivity|].
  destruct (complete_only_after_all_checks lock_free calculator scheduler
              "task-1" new_year 1 (store (task_in SCHEDULED)) _ _ "task-1"
              eq_refl eq_refl) as (_ & _ & Hu & _).
  split; [exact Hu | reflexivity].
Defined.

Lemma failure_recorded_then_reraised_witness :
  1 ∈ auth_user (store (task_in SCHEDULED)) ∧
  ∃ w,
    exec (calculate_max_concurrent_usage_task lock_free calculator_fails
            scheduler "task-1" new_year 1) (store (task_in SCHEDULED))
      = (Raised (OtherError "database is down"), w) ∧
    calculation_tasks (db w) !! "task-1" = Some (mkTask 1 new_year ERROR).
Proof.
  assert (Hu : 1 ∈ auth_user (store (task_in SCHEDULED)))
    by (vm_compute; reflexivity).
  split; [exact Hu|].
  destruct (failure_recorded_then_reraised lock_free calculator_fails
              scheduler "task-1" new_year 1 (store (task_in SCHEDULED))
              _ _ Hu eq_refl) as (w & He & _ & _ & Hrow).
  exists w. split; [exact He|]. apply (Hrow (mkTask 1 new_year SCHEDULED)).
  reflexivity.
Defined.

Lemma error_recording_never_raises_witness :
  1 ∈ auth_user (store ∅) ∧
  calculation_tasks (store ∅) !! "task-1" = None ∧
  (exec (calculate_max_concurrent_usage_task lock_free calculator
           scheduler_fails "task-1" new_year 1) (store ∅)).1
    = Raised (OtherError "broker unreachable") ∧
  db (exec (calculate_max_concurrent_usage_task lock_free calculator
              scheduler_fails "task-1" new_year 1) (store ∅)).2 = store ∅.
Proof.
  assert (Hu : 1 ∈ auth_user (store ∅))
    by (vm_compute; reflexivity).
  split; [exact Hu|]. split; [reflexivity|].
  destruct (error_recording_never_raises lock_free calculator
              scheduler_fails "task-1" new_year 1 (store ∅) _ _ Hu eq_refl)
    as (_ & Hraised & Hsame).
  split; [exact Hraised | apply Hsame; reflexivity].
Defined.

(** C3 as stated fails: the user exists and the row is missing, but the
    lock is not obtained, so the scheduler is never called and the delivery
    raises instead of returning. *)
Lemma reschedule_promise_broken_by_timeout :
  1 ∈ auth_user (store ∅) ∧
  calculation_tasks (store ∅) !! "task-1" = None ∧
  ¬ reschedules_and_returns lock_times_out calculator scheduler
      "task-1" new_year 1 (store ∅).
Proof.
  split; [vm_compute; reflexivity|]. split; [reflexivity|].
  intros H. destruct (H _ _ eq_refl) as [Hr _]. discriminate Hr.
Qed.

Lemma missing_record_is_rescheduled_witness :
  1 ∈ auth_user (store ∅) ∧
  lock_free {[1]} (store ∅) = inr (store ∅) ∧
  calculation_tasks (store ∅) !! "task-1" = None ∧
  ∃ w,
    exec (calculate_max_concurrent_usage_task lock_free calculator scheduler
            "task-1" new_year 1) (store ∅) = (Returned, w) ∧
    invoked is_Calculate (log w) = false ∧
    calculation_tasks (db w) !! "task-2" = Some (mkTask 1 new_year SCHEDULED).
Proof.
  assert (Hu : 1 ∈ auth_user (store ∅))
    by (vm_compute; reflexivity).
  split; [exact Hu|]. split; [reflexivity|]. split; [reflexivity|].
  eexists. split; [reflexivity|].
  destruct (missing_record_is_rescheduled lock_free calculator scheduler
              "task-1" new_year 1 (store ∅) (store ∅) _ _ Hu eq_refl eq_refl
              eq_refl) as (Hno & _ & _).
  split; [exact Hno | reflexivity].
Defined.

(** C4 as stated fails: the row exists with status COMPLETE, but the lock is
    not obtained, so the delivery raises and the row's status changes. *)
Lemma skip_promise_broken_by_timeout :
  1 ∈ auth_user (store (task_in COMPLETE)) ∧
  calculation_tasks (store (task_in COMPLETE)) !! "task-1"
    = Some (mkTask 1 new_year COMPLETE) ∧
  ¬ skips_silently lock_times_out calculator scheduler
      "task-1" new_year 1 (store (task_in COMPLETE)).
Proof.
  split; [vm_compute; reflexivity|]. split; [reflexivity|].
  intros H. destruct (H _ _ eq_refl) as [Hr _]. discriminate Hr.
Qed.

Lemma terminal_record_is_skipped_witness :
  1 ∈ auth_user (store (task_in COMPLETE)) ∧
  lock_free {[1]} (store (task_in COMPLETE))
    = inr (store (task_in COMPLETE)) ∧
  calculation_tasks (store (task_in COMPLETE)) !! "task-1"
    = Some (mkTask 1 new_year COMPLETE) ∧
  COMPLETE ≠ SCHEDULED ∧
  ∃ w,
    exec (calculate_max_concurrent_usage_task lock_free calculator scheduler
            "task-1" new_year 1) (store (task_in COMPLETE)) = (Returned, w) ∧
    db w = store (task_in COMPLETE) ∧
    held w = ∅ ∧
    log w = under_lock 1
              [TaskRead "task-1" (Some (mkTask 1 new_year COMPLETE))] [].
Proof.
  assert (Hu : 1 ∈ auth_user (store (task_in COMPLETE)))
    by (vm_compute; reflexivity).
  assert (Hs : COMPLETE ≠ SCHEDULED) by discriminate.
  split; [exact Hu|]. split; [reflexivity|]. split; [reflexivity|].
  split; [exact Hs|].
  eexists. split; [reflexivity|].
  destruct (terminal_record_is_skipped lock_free calculator scheduler
              "task-1" new_year 1 (store (task_in COMPLETE))
              (store (task_in COMPLETE)) (mkTask 1 new_year COMPLETE) _ _
              Hu eq_refl eq_refl Hs eq_refl) as (_ & Hdb & Hheld & Hlog).
  split; [exact Hdb|]. split; [exact Hheld | exact Hlog].
Defined.

Lemma missing_user_is_skipped_witness :
  (2 ∉ auth_user (store (task_in SCHEDULED))) ∧
  ∃ w,
    exec (calculate_max_concurrent_usage_task lock_free calculator scheduler
            "task-1" new_year 2) (store (task_in SCHEDULED)) = (Returned, w) ∧
    db w = store (task_in SCHEDULED) ∧ held w = ∅ ∧ log w = [].
Proof.
  assert (Hu : 2 ∉ auth_user (store (task_in SCHEDULED)))
    by (intros H; vm_compute in H; discriminate H).
  split; [exact Hu|].
  eexists. split; [reflexivity|].
  destruct (missing_user_is_skipped lock_free calculator scheduler "task-1"
              new_year 2 (store (task_in SCHEDULED)) _ _ Hu eq_refl)
    as (_ & Hdb & Hheld & Hlog).
  split; [exact Hdb|]. split; [exact Hheld | exact Hlog].
Defined.

(** C6, the defect: a delivery of a task that is already COMPLETE, made
    while the user's lock cannot be obtained, leaves the row in ERROR. *)
Theorem terminal_status_overwritten_on_timeout :
  calculation_tasks (store (task_in COMPLETE)) !! "task-1"
    = Some (mkTask 1 new_year COMPLETE) ∧
  exec (calculate_max_concurrent_usage_task lock_times_out calculator
          scheduler "task-1" new_year 1) (store (task_in COMPLETE))
    = (Raised LockTimeout,
       mkWorld (store (task_in ERROR)) ∅
         [TaskStatusUpdated "task-1" ERROR]) ∧
  calculation_tasks (store (task_in ERROR)) !! "task-1"
    = Some (mkTask 1 new_year ERROR).
Proof. repeat split. Qed.

End Deliveries.

(** ** The Task Lock Manager around its two critical sections *)

Section Locking.

Variable lock_wait : gset Z → DB → exn + DB.
Variable calculate_max_concurrent_usage : Z → Z → DB → option exn * DB.
Variable schedule_concurrent_calculation_task :
  Z → Z → DB → option exn * DB.
Variable CloudAccount_filter_delete : Z → DB → option exn * DB.

Abbreviation delete_all :=
  (_delete_cloud_accounts lock_wait CloudAccount_filter_delete).

(** However the block ends, the locks it took are given back. *)
Lemma lock_released_on_exit {A} (user_ids : list Z) (body : M A) w :
  (∀ w0, held (body w0).2 = held w0) →
  held w = ∅ →
  held (lock_task_for_user_ids lock_wait user_ids body w).2 = ∅.
Proof.
  intros Hbody Hw. unfold lock_task_for_user_ids.
  destruct (lock_wait (list_to_set user_ids) (db w)) as [e|d1]; simpl.
  - exact Hw.
  - rewrite Hbody. simpl. rewrite Hw. apply released.
Qed.

(** The deletion of one account never touches the lock table itself. *)
Lemma delete_one_keeps_held (cloud_account : CloudAccount) w0 :
  held
    (try_except
       (CloudAccount_refresh_from_db cloud_account ;;
        extern (DeleteAccount (account_id cloud_account))
          (CloudAccount_filter_delete (account_id cloud_account)))
       (λ e, bool_decide (e = DoesNotExist CloudAccountModel))
       (λ _, pass) w0).2 = held w0.
Proof.
  unfold try_except, mbind, M_bind, CloudAccount_refresh_from_db, extern,
    pass, mret, M_ret.
  destruct (cloud_accounts (db w0) !! account_id cloud_account); simpl.
  - destruct (CloudAccount_filter_delete _ _) as [[e|] d']; simpl;
      [destruct (bool_decide _)|]; reflexivity.
  - reflexivity.
Qed.

(** One turn of the loop: the user of the account is fetched, and only
    then is the lock asked for. *)
Lemma delete_all_cons cloud_account rest w :
  delete_all (cloud_account :: rest) w =
    if bool_decide (account_user_id cloud_account ∈ auth_user (db w))
    then (lock_task_for_user_ids lock_wait [account_user_id cloud_account]
            (try_except
               (CloudAccount_refresh_from_db cloud_account ;;
                extern (DeleteAccount (account_id cloud_account))
                  (CloudAccount_filter_delete (account_id cloud_account)))
               (λ e, bool_decide (e = DoesNotExist CloudAccountModel))
               (λ _, pass)) ;;
          delete_all rest) w
    else (Raise (DoesNotExist UserModel), w).
Proof.
  cbn [_delete_cloud_accounts].
  unfold mbind at 1, M_bind at 1, CloudAccount_user.
  by destruct (bool_decide _).
Qed.

Lemma delete_all_releases accounts : ∀ w,
  held w = ∅ → held (delete_all accounts w).2 = ∅.
Proof.
  induction accounts as [|cloud_account rest IH]; intros w Hw; [exact Hw|].
  rewrite delete_all_cons. destruct (bool_decide _); [|exact Hw].
  unfold mbind at 1, M_bind at 1.
  pose proof (lock_released_on_exit [account_user_id cloud_account] _ w
                (delete_one_keeps_held cloud_account) Hw) as Hrel.
  destruct (lock_task_for_user_ids lock_wait _ _ w) as [[[]| |e] w1];
    simpl in *; auto.
Qed.

Lemma delete_all_timeout accounts cloud_account w e :
  account_user_id cloud_account ∈ auth_user (db w) →
  lock_wait {[account_user_id cloud_account]} (db w) = inl e →
  delete_all (cloud_account :: accounts) w = (Raise e, w).
Proof.
  intros Hu Hl. rewrite delete_all_cons, bool_decide_eq_true_2 by done.
  unfold mbind at 1, M_bind at 1, lock_task_for_user_ids. simpl.
  rewrite union_empty_r_L, Hl. reflexivity.
Qed.

Lemma delete_all_user_gone accounts cloud_account w :
  account_user_id cloud_account ∉ auth_user (db w) →
  delete_all (cloud_account :: accounts) w
    = (Raise (DoesNotExist UserModel), w).
Proof.
  intros Hu. by rewrite delete_all_cons, bool_decide_eq_false_2.
Qed.

(** C9: both operations that take the per-user lock hold no lock when they
    end, whether they return or raise (the exception of the critical
    section still reaches the caller), and a failed acquisition is raised
    to the caller: by the task, after its ERROR update; by the deletion
    loop, at whichever account it happens, with the remaining accounts
    left alone.  Either operation asks for the lock only once it has found
    the row of the user. *)
Theorem locks_released_and_timeouts_surfaced
    (task_id : string) (date user_id : Z) (accounts : list CloudAccount)
    (d : DB) :
  held (exec (calculate_max_concurrent_usage_task lock_wait
                calculate_max_concurrent_usage
                schedule_concurrent_calculation_task task_id date user_id)
          d).2 = ∅ ∧
  held (exec (delete_all accounts) d).2 = ∅ ∧
  (∀ e, user_id ∈ auth_user d →
        lock_wait {[user_id]} d = inl e →
        (exec (calculate_max_concurrent_usage_task lock_wait
                 calculate_max_concurrent_usage
                 schedule_concurrent_calculation_task task_id date user_id)
           d).1 = Raised e) ∧
  (∀ e cloud_account rest w,
        account_user_id cloud_account ∈ auth_user (db w) →
        lock_wait {[account_user_id cloud_account]} (db w) = inl e →
        delete_all (cloud_account :: rest) w = (Raise e, w)) ∧
  (∀ e d1 row d2, user_id ∈ auth_user d →
        lock_wait {[user_id]} d = inr d1 →
        calculation_tasks d1 !! task_id = Some row →
        task_status row = SCHEDULED →
        calculate_max_concurrent_usage date user_id d1 = (Some e, d2) →
        exec (calculate_max_concurrent_usage_task lock_wait
                calculate_max_concurrent_usage
                schedule_concurrent_calculation_task task_id date user_id) d
        = (Raised e,
           mkWorld (update_status task_id ERROR d2) ∅
             (under_lock user_id
                [TaskRead task_id (Some row);
                 Called (Calculate date user_id) (Some e)]
                [TaskStatusUpdated task_id ERROR]))).
Proof.
  split; [|split; [|split; [|split]]].
  - pose proof (exec_task_path lock_wait calculate_max_concurrent_usage
                  schedule_concurrent_calculation_task task_id date user_id d)
      as P.
    by destruct P.
  - unfold exec.
    pose proof (delete_all_releases accounts (mkWorld d ∅ []) eq_refl) as H.
    by destruct (delete_all accounts _) as [[[]| |e] w1].
  - intros e Hu Hl.
    pose proof (exec_task_path lock_wait calculate_max_concurrent_usage
                  schedule_concurrent_calculation_task task_id date user_id d)
      as P.
    destruct P; congruence.
  - intros e cloud_account rest w. apply delete_all_timeout.
  - intros e d1 row d2 Hu Hl Ht Hs Hc.
    pose proof (exec_task_path lock_wait calculate_max_concurrent_usage
                  schedule_concurrent_calculation_task task_id date user_id d)
      as P.
    destruct (exec _ d) as [r w]. simpl in P.
    destruct P; repeat match goal with
      | H1 : ?x = _, H2 : ?x = _ |- _ => rewrite H1 in H2; simplify_eq
      end; congruence.
Qed.

End Locking.

Section LockingDeliveries.

Import Scenario.

Lemma locks_released_and_timeouts_surfaced_witness :
  1 ∈ auth_user (store (task_in SCHEDULED)) ∧
  lock_times_out {[1]} (store (task_in SCHEDULED)) = inl LockTimeout ∧
  (exec (calculate_max_concurrent_usage_task lock_times_out calculator
           scheduler "task-1" new_year 1) (store (task_in SCHEDULED))).1
    = Raised LockTimeout ∧
  1 ∈ auth_user account_store ∧
  _delete_cloud_accounts lock_times_out deleter [mkAccount 10 1]
      (mkWorld account_store ∅ [])
    = (Raise LockTimeout, mkWorld account_store ∅ []) ∧
  held (exec (_delete_cloud_accounts lock_free deleter_fails
                [mkAccount 10 1]) account_store).2 = ∅ ∧
  (exec (_delete_cloud_accounts lock_free deleter_fails [mkAccount 10 1])
     account_store).1 = Raised (OtherError "cloud trail cannot be disabled") ∧
  exec (calculate_max_concurrent_usage_task lock_free calculator_fails
          scheduler "task-1" new_year 1) (store (task_in SCHEDULED))
    = (Raised (OtherError "database is down"),
       mkWorld (store (task_in ERROR)) ∅
         (under_lock 1
            [TaskRead "task-1" (Some (mkTask 1 new_year SCHEDULED));
             Called (Calculate new_year 1)
               (Some (OtherError "database is down"))]
            [TaskStatusUpdated "task-1" ERROR])).
Proof.
  assert (Hu : 1 ∈ auth_user (store (task_in SCHEDULED)))
    by (vm_compute; reflexivity).
  assert (Hu' : 1 ∈ auth_user account_store) by (vm_compute; reflexivity).
  destruct (locks_released_and_timeouts_surfaced lock_times_out calculator
              scheduler deleter "task-1" new_year 1 [mkAccount 10 1]
              (store (task_in SCHEDULED)))
    as (_ & _ & Htask & Hloop & _).
  destruct (locks_released_and_timeouts_surfaced lock_free calculator_fails
              scheduler deleter_fails "task-1" new_year 1 [mkAccount 10 1]
              account_store)
    as (_ & Hheld & _ & _ & _).
  destruct (locks_released_and_timeouts_surfaced lock_free calculator_fails
              scheduler deleter_fails "task-1" new_year 1 [mkAccount 10 1]
              (store (task_in SCHEDULED)))
    as (_ & _ & _ & _ & Hraise).
  split; [exact Hu|]. split; [reflexivity|].
  split; [exact (Htask LockTimeout Hu eq_refl)|].
  split; [exact Hu'|].
  split; [exact (Hloop LockTimeout (mkAccount 10 1) []
                   (mkWorld account_store ∅ []) Hu' eq_refl)|].
  split; [exact Hheld|]. split; [reflexivity|].
  exact (Hraise _ _ _ _ Hu eq_refl eq_refl eq_refl eq_refl).
Defined.

End LockingDeliveries.

(** ** Incoming events: recalculation or fresh tail *)

Section IncomingEvents.

Variable recalculate_runs : InstanceEvent → DB → option exn * DB.
Variable normalize_runs : list InstanceEvent → DB → exn + list NormalizedRun.
Variable calculate_max_concurrent_usage_from_runs :
  list Run → DB → option exn * DB.

Abbreviation process := (process_instance_event recalculate_runs
  normalize_runs calculate_max_concurrent_usage_from_runs).
Abbreviation fresh_tail := (process_fresh_tail normalize_runs
  calculate_max_concurrent_usage_from_runs).

(** The three [Q] objects, or-ed and restricted to the instance, select
    exactly the runs the event touches. *)
Lemma filters_touches event run :
  filters (occurred_at event) run
    && bool_decide (run_instance_id run = instance_id event) = true
  ↔ touches event run.
Proof.
  unfold filters, after_run, during_run, during_run_no_end, touches.
  rewrite andb_true_iff, !orb_true_iff, !andb_true_iff, !bool_decide_eq_true.
  destruct (end_time run) as [e|].
  - rewrite bool_decide_eq_true. split.
    + intros [[[H|[H1 H2]]|[_ H]] Hi]; try discriminate; split; auto.
      right. left. eauto.
    + intros [Hi [H|[[H1 (e' & He & H2)]|[_ H]]]]; try discriminate;
        split; auto.
      simplify_eq. auto.
  - split.
    + intros [[[H|[_ H]]|[H1 _]] Hi]; try discriminate; split; auto.
    + intros [Hi [H|[[_ (e' & He & _)]|[H1 _]]]]; try discriminate;
        split; auto.
Qed.

Lemma touched_iff event (rs : list Run) :
  existsb (λ r, filters (occurred_at event) r
                && bool_decide (run_instance_id r = instance_id event)) rs
    = true
  ↔ ∃ run, run ∈ rs ∧ touches event run.
Proof.
  rewrite existsb_exists. split.
  - intros (run & Hin & H). exists run. split.
    + by apply list_elem_of_In.
    + by apply filters_touches.
  - intros (run & Hin & H). exists run. split.
    + by apply list_elem_of_In.
    + by apply filters_touches.
Qed.

Lemma touched_or_not event (rs : list Run) :
  (∃ run, run ∈ rs ∧ touches event run) ∨
  ¬ (∃ run, run ∈ rs ∧ touches event run).
Proof.
  rewrite <- touched_iff. destruct (existsb _ rs); [by left | by right].
Qed.

(** The [for] loop writes one row per normalized run and nothing else. *)
Lemma save_normalized_runs_spec normalized_runs : ∀ saved w,
  save_normalized_runs normalized_runs saved w =
    (Next (saved ++ (Run_of <$> normalized_runs)),
     mkWorld (set_runs (λ rs, rs ++ (Run_of <$> normalized_runs)) (db w))
       (held w) (log w ++ (RunSaved <$> (Run_of <$> normalized_runs)))).
Proof.
  induction normalized_runs as [|nr rest IH]; intros saved w.
  - simpl. unfold mret, M_ret. rewrite !app_nil_r. f_equal.
    destruct w as [[] ? ?]. unfold set_runs. simpl. by rewrite app_nil_r.
  - cbn [save_normalized_runs]. unfold mbind at 1, M_bind at 1, Run_save.
    rewrite IH. simpl. rewrite <- !app_assoc. simpl. f_equal. f_equal.
    unfold set_runs. simpl. by rewrite <- app_assoc.
Qed.

Lemma no_recalculation_in_saves (rs : list Run) :
  invoked is_Recalculate (RunSaved <$> rs) = false.
Proof. induction rs as [|r rs IH]; [reflexivity | exact IH]. Qed.

(** What the fresh-tail branch does never includes a recalculation. *)
Lemma fresh_tail_never_recalculates event w :
  invoked is_Recalculate (log w) = false →
  invoked is_Recalculate (log (fresh_tail event w).2) = false.
Proof.
  intros Hw. unfold process_fresh_tail, invoked in *.
  destruct (bool_decide (event_type event = power_on)); [|exact Hw].
  unfold mbind, M_bind, extern_read, extern.
  destruct (normalize_runs [event] (db w)) as [e|nrs]; simpl.
  - rewrite existsb_app, Hw. reflexivity.
  - rewrite save_normalized_runs_spec. simpl.
    destruct (calculate_max_concurrent_usage_from_runs _ _) as [[e|] d'];
      simpl; rewrite !existsb_app, Hw; simpl;
      rewrite orb_false_r; apply no_recalculation_in_saves.
Qed.

Lemma process_touched event d :
  instance_id event ∈ instances d →
  (∃ run, run ∈ runs d ∧ touches event run) →
  exec (process event) d =
    (match (recalculate_runs event d).1 with
     | Some e => Raised e
     | None => Returned
     end,
     mkWorld (recalculate_runs event d).2 ∅
       [Called (Recalculate event) (recalculate_runs event d).1]).
Proof.
  intros Hi Ht. apply touched_iff in Ht.
  unfold exec, process_instance_event, mbind, M_bind, Instance_get,
    Run_filter_exists, extern. cbn [db].
  rewrite bool_decide_eq_true_2 by done. cbn [db]. rewrite Ht.
  cbn [db held log app].
  by destruct (recalculate_runs event d) as [[e|] d'].
Qed.

Lemma process_untouched event d :
  instance_id event ∈ instances d →
  ¬ (∃ run, run ∈ runs d ∧ touches event run) →
  exec (process event) d = exec (fresh_tail event) d.
Proof.
  intros Hi Ht. rewrite <- touched_iff in Ht. apply not_true_is_false in Ht.
  unfold exec, process_instance_event, mbind at 1 2, M_bind at 1 2,
    Instance_get, Run_filter_exists. cbn [db].
  rewrite bool_decide_eq_true_2 by done. cbn [db]. by rewrite Ht.
Qed.

(** What the fresh-tail branch does with a power-on: it asks the normalizer
    about the one event, saves a row per run it yields, and asks for the
    usage of the rows just saved. *)
Lemma fresh_tail_power_on event d :
  event_type event = power_on →
  exec (fresh_tail event) d =
    match normalize_runs [event] d with
    | inl e => (Raised e, mkWorld d ∅ [Called (Normalize [event]) (Some e)])
    | inr normalized_runs =>
        let saved := Run_of <$> normalized_runs in
        let usage :=
          calculate_max_concurrent_usage_from_runs saved
            (set_runs (λ rs, rs ++ saved) d) in
        (match usage.1 with Some e => Raised e | None => Returned end,
         mkWorld usage.2 ∅
           (Called (Normalize [event]) None :: (RunSaved <$> saved)
            ++ [Called (CalculateFromRuns saved) usage.1]))
    end.
Proof.
  intros Hon. unfold exec, process_fresh_tail. rewrite Hon. simpl.
  unfold mbind, M_bind, extern_read, extern. simpl.
  destruct (normalize_runs [event] d) as [e|normalized_runs]; [done|].
  rewrite save_normalized_runs_spec. simpl.
  by destruct (calculate_max_concurrent_usage_from_runs _ _) as [[e|] d'].
Qed.

(** C7: for an event of an existing instance, [recalculate_runs] is called
    exactly when some persisted run of that instance starts after the
    event, or starts at or before it and ends after it, or starts at or
    before it and is open.  When it is called, it is called on this event
    and nothing else happens.  Otherwise the event is a fresh tail: a
    power-on is handed, alone, to [normalize_runs]; if that raises, nothing
    is written; if not, one Run row is saved per normalized run, in order
    and after the rows already there, and
    [calculate_max_concurrent_usage_from_runs] is called once on the rows
    just saved, its outcome being the outcome of the whole; a power-off
    calls and writes nothing. *)
Theorem recalculation_iff_event_touches_a_run event d r w :
  instance_id event ∈ instances d →
  exec (process event) d = (r, w) →
  (invoked is_Recalculate (log w) = true
   ↔ ∃ run, run ∈ runs d ∧
        run_instance_id run = instance_id event ∧
        (occurred_at event < start_time run ∨
         (start_time run ≤ occurred_at event ∧
          ∃ e, end_time run = Some e ∧ occurred_at event < e) ∨
         (start_time run ≤ occurred_at event ∧ end_time run = None))) ∧
  (invoked is_Recalculate (log w) = true →
   log w = [Called (Recalculate event) (recalculate_runs event d).1] ∧
   db w = (recalculate_runs event d).2) ∧
  (invoked is_Recalculate (log w) = false →
   match event_type event with
   | power_on =>
       match normalize_runs [event] d with
       | inl e =>
           r = Raised e ∧ db w = d ∧
           log w = [Called (Normalize [event]) (Some e)]
       | inr normalized_runs =>
           let saved := Run_of <$> normalized_runs in
           let usage :=
             calculate_max_concurrent_usage_from_runs saved
               (set_runs (λ rs, rs ++ saved) d) in
           r = match usage.1 with Some e => Raised e | None => Returned end ∧
           db w = usage.2 ∧
           log w = Called (Normalize [event]) None :: (RunSaved <$> saved)
                   ++ [Called (CalculateFromRuns saved) usage.1]
       end
   | power_off => r = Returned ∧ db w = d ∧ log w = []
   end).
Proof.
  intros Hi He.
  destruct (touched_or_not event (runs d)) as [Ht|Ht].
  - rewrite (process_touched event d Hi Ht) in He. simplify_eq. simpl.
    split; [|split]; [split; [intros _; exact Ht|reflexivity] |done|done].
  - rewrite (process_untouched event d Hi Ht) in He.
    pose proof (fresh_tail_never_recalculates event (mkWorld d ∅ [])
                  eq_refl) as Hn.
    assert (Hw : invoked is_Recalculate (log w) = false).
    { unfold exec in He. destruct (fresh_tail event _) as [[[]| |e] w1];
        by simplify_eq. }
    rewrite Hw. split; [|split]; [split|..]; try done.
    intros _. destruct (event_type event) eqn:Hkind.
    + rewrite (fresh_tail_power_on event d Hkind) in He.
      destruct (normalize_runs [event] d) as [e|normalized_runs];
        cbv zeta in He |- *; by simplify_eq.
    + unfold exec, process_fresh_tail in He. rewrite Hkind in He.
      simpl in He. by simplify_eq.
Qed.

(** C8: a power-off event that touches no persisted run of its instance
    leaves the store as it was (no run created or changed) and calls
    nothing: no normalization, no recalculation, no usage computation. *)
Theorem stray_power_off_changes_nothing event d r w :
  event_type event = power_off →
  (∀ run, run ∈ runs d → ¬ touches event run) →
  exec (process event) d = (r, w) →
  db w = d ∧ log w = [] ∧ held w = ∅ ∧
  (instance_id event ∈ instances d → r = Returned).
Proof.
  intros Hoff Hnone He.
  assert (Ht : ¬ (∃ run, run ∈ runs d ∧ touches event run)).
  { intros (run & Hin & H). by apply (Hnone run). }
  destruct (decide (instance_id event ∈ instances d)) as [Hi|Hi].
  - rewrite (process_untouched event d Hi Ht) in He.
    unfold exec, process_fresh_tail in He. rewrite Hoff in He.
    simpl in He. by simplify_eq.
  - unfold exec, process_instance_event, mbind, M_bind, Instance_get in He.
    simpl in He. rewrite bool_decide_eq_false_2 in He by done.
    by simplify_eq.
Qed.

End IncomingEvents.

Section EventDeliveries.

Import Scenario.

(** A power-on at 11:00 falls within the morning run: recalculation.  A
    power-on at 13:00 touches nothing: the normalizer's open run is saved
    and the usage of its days is asked for. *)
Lemma recalculation_iff_event_touches_a_run_witness :
  7 ∈ instances (instance_store [morning_run]) ∧
  exec (process_instance_event recalculator normalizer usage_from_runs
          (mkEvent 7 power_on 39600)) (instance_store [morning_run])
    = (Returned,
       mkWorld (instance_store [morning_run]) ∅
         [Called (Recalculate (mkEvent 7 power_on 39600)) None]) ∧
  (∃ run, run ∈ runs (instance_store [morning_run]) ∧
          run_instance_id run = 7 ∧
          (39600 < start_time run ∨
           (start_time run ≤ 39600 ∧
            ∃ e, end_time run = Some e ∧ 39600 < e) ∨
           (start_time run ≤ 39600 ∧ end_time run = None))) ∧
  ∃ w,
    exec (process_instance_event recalculator normalizer usage_from_runs
            (mkEvent 7 power_on 46800)) (instance_store [morning_run])
      = (Returned, w) ∧
    invoked is_Recalculate (log w) = false ∧
    db w = instance_store [morning_run; mkRun 46800 None 3 7 "t2.micro" 4 2] ∧
    log w = [Called (Normalize [mkEvent 7 power_on 46800]) None;
             RunSaved (mkRun 46800 None 3 7 "t2.micro" 4 2);
             Called (CalculateFromRuns
                       [mkRun 46800 None 3 7 "t2.micro" 4 2]) None].
Proof.
  assert (Hi : 7 ∈ instances (instance_store [morning_run]))
    by (vm_compute; reflexivity).
  split; [exact Hi|]. split; [reflexivity|].
  destruct (recalculation_iff_event_touches_a_run recalculator normalizer
              usage_from_runs (mkEvent 7 power_on 39600)
              (instance_store [morning_run]) _ _ Hi eq_refl)
    as ([Hrun _] & _ & _).
  split; [exact (Hrun eq_refl)|].
  destruct (recalculation_iff_event_touches_a_run recalculator normalizer
              usage_from_runs (mkEvent 7 power_on 46800)
              (instance_store [morning_run]) _ _ Hi eq_refl)
    as (_ & _ & Hfresh).
  eexists. split; [reflexivity|]. split; [reflexivity|].
  destruct (Hfresh eq_refl) as (_ & Hdb & Hlog).
  split; [exact Hdb | exact Hlog].
Defined.

(** A power-on at 13:00 touches nothing: the normalizer's open run is
    saved and the usage of its days is asked for. *)
Example fresh_power_on_starts_a_run :
  exec (process_instance_event recalculator normalizer usage_from_runs
          (mkEvent 7 power_on 46800)) (instance_store [morning_run])
    = (Returned,
       mkWorld
         (instance_store
            [morning_run; mkRun 46800 None 3 7 "t2.micro" 4 2]) ∅
         [Called (Normalize [mkEvent 7 power_on 46800]) None;
          RunSaved (mkRun 46800 None 3 7 "t2.micro" 4 2);
          Called (CalculateFromRuns
                    [mkRun 46800 None 3 7 "t2.micro" 4 2]) None]).
Proof. reflexivity. Qed.

(** A power-off at 13:00, after the morning run has ended. *)
Lemma stray_power_off_changes_nothing_witness :
  event_type (mkEvent 7 power_off 46800) = power_off ∧
  (∀ run, run ∈ runs (instance_store [morning_run]) →
          ¬ touches (mkEvent 7 power_off 46800) run) ∧
  ∃ w,
    exec (process_instance_event recalculator normalizer usage_from_runs
            (mkEvent 7 power_off 46800)) (instance_store [morning_run])
      = (Returned, w) ∧
    db w = instance_store [morning_run] ∧ log w = [].
Proof.
  assert (Hnone : ∀ run, run ∈ runs (instance_store [morning_run]) →
                         ¬ touches (mkEvent 7 power_off 46800) run).
  { intros run Hin. apply list_elem_of_singleton in Hin. subst run.
    unfold touches. simpl. intros [_ [H|[[_ (e & He & H)]|[_ H]]]].
    - lia.
    - simplify_eq. lia.
    - discriminate H. }
  split; [reflexivity|]. split; [exact Hnone|].
  eexists. split; [reflexivity|].
  destruct (stray_power_off_changes_nothing recalculator normalizer
              usage_from_runs (mkEvent 7 power_off 46800)
              (instance_store [morning_run]) _ _ eq_refl Hnone eq_refl)
    as (Hdb & Hlog & _ & _).
  split; [exact Hdb | exact Hlog].
Defined.

End EventDeliveries.

(** ** More on the task: what a delivery writes, and redelivery *)

Section TaskDeliveries.

Variable lock_wait : gset Z → DB → exn + DB.
Variable calculate_max_concurrent_usage : Z → Z → DB → option exn * DB.
Variable schedule_concurrent_calculation_task :
  Z → Z → DB → option exn * DB.
Variables (task_id : string) (date user_id : Z).

Abbreviation task := (calculate_max_concurrent_usage_task lock_wait
  calculate_max_concurrent_usage schedule_concurrent_calculation_task
  task_id date user_id).

Lemma status_written_iff t s (l : list effect) :
  status_written t s l = true ↔ ∃ ev, ev ∈ l ∧ writes_status t s ev = true.
Proof.
  unfold status_written. rewrite existsb_exists.
  split; intros (ev & Hin & H); exists ev; (split; [|done]);
    by apply list_elem_of_In.
Qed.

Lemma invoked_iff p (l : list effect) :
  invoked p l = true ↔ ∃ c o, Called c o ∈ l ∧ p c = true.
Proof.
  unfold invoked. rewrite existsb_exists. split.
  - intros (ev & Hin & H). destruct ev; try discriminate.
    eexists _, _. split; [by apply list_elem_of_In | done].
  - intros (c & o & Hin & H). exists (Called c o).
    split; [by apply list_elem_of_In | done].
Qed.

Ltac in_log H :=
  unfold under_lock in H; simpl in H;
  repeat (apply elem_of_cons in H as [H|H]; [try discriminate H|]);
  try (by apply elem_of_nil in H).

(** X1: once the date is parsed and the user looked up, the caller sees an
    exception exactly when the delivery issued the ERROR update for its
    task identifier (an update of the matching rows, of which there may be
    none); that update is then the last thing the delivery did, and a row
    the store holds under the identifier afterwards has status ERROR. *)
Theorem raised_iff_error_recorded d r w :
  exec task d = (r, w) →
  ((∃ e, r = Raised e) ↔ status_written task_id ERROR (log w) = true) ∧
  (∀ e, r = Raised e →
        last (log w) = Some (TaskStatusUpdated task_id ERROR) ∧
        ∀ row, calculation_tasks (db w) !! task_id = Some row →
               task_status row = ERROR).
Proof.
  intros He. apply exec_task_inv in He. rewrite status_written_iff.
  destruct He; (split; [split|]);
    match goal with
    | |- (∃ e, Returned = Raised e) → _ => intros [e0 ?]; discriminate
    | |- ∀ e, Returned = Raised e → _ => intros e0 ?; discriminate
    | |- _ → ∃ e, Returned = Raised e =>
        intros (ev & Hin & Hev); in_log Hin; subst ev; simpl in Hev;
        try discriminate Hev;
        apply bool_decide_eq_true in Hev as [_ ?]; discriminate
    | |- _ → ∃ e, Raised _ = Raised e => intros _; by eexists
    | |- ∀ e, Raised _ = Raised e → _ =>
        intros ? _; split; [reflexivity|];
        intros row0 Hrow0; cbn [db] in Hrow0;
        rewrite update_status_lookup in Hrow0;
        apply fmap_Some in Hrow0 as (found & _ & ->); reflexivity
    | |- (∃ e, Raised _ = Raised e) → _ =>
        intros _; exists (TaskStatusUpdated task_id ERROR);
        (split; [unfold under_lock; set_solver|]);
        simpl; by apply bool_decide_eq_true
    end.
Qed.

(** X2: whatever status a delivery writes, it writes it into the row of
    the delivered task identifier, and it is never SCHEDULED. *)
Theorem writes_own_row_never_scheduled d r w t s :
  exec task d = (r, w) →
  status_written t s (log w) = true →
  t = task_id ∧ s ≠ SCHEDULED.
Proof.
  intros He Hw. apply exec_task_inv in He.
  apply status_written_iff in Hw as (ev & Hin & Hev).
  destruct He; in_log Hin; subst ev; simpl in Hev; try discriminate Hev;
    apply bool_decide_eq_true in Hev as [<- <-]; done.
Qed.

(** X3: one delivery never both reschedules and computes; the calculator
    and the scheduler are each called at most once, for the delivered date
    and user, the calculator only after the row was read SCHEDULED and the
    scheduler only after the row was not found. *)
Theorem reschedules_or_computes_never_both d r w :
  exec task d = (r, w) →
  (invoked is_Schedule (log w) = true →
   invoked is_Calculate (log w) = false ∧
   TaskRead task_id None ∈ log w ∧
   ∃ o, filter (λ ev, is_call is_Schedule ev = true) (log w)
        = [Called (Schedule date user_id) o]) ∧
  (invoked is_Calculate (log w) = true →
   invoked is_Schedule (log w) = false ∧
   (∃ row, TaskRead task_id (Some row) ∈ log w ∧
           task_status row = SCHEDULED) ∧
   ∃ o, filter (λ ev, is_call is_Calculate ev = true) (log w)
        = [Called (Calculate date user_id) o]).
Proof.
  intros He. apply exec_task_inv in He.
  destruct He; (split; intros Hi; simpl in Hi; try discriminate Hi).
  - split; [reflexivity|]. split; [unfold under_lock; set_solver|].
    by eexists.
  - split; [reflexivity|]. split; [unfold under_lock; set_solver|].
    by eexists.
  - split; [reflexivity|]. split; [|by eexists].
    exists row. split; [unfold under_lock; set_solver | done].
  - split; [reflexivity|]. split; [|by eexists].
    exists row. split; [unfold under_lock; set_solver | done].
Qed.

Ltac same_store :=
  repeat match goal with
  | H1 : ?x = _, H2 : ?x = _ |- _ => rewrite H1 in H2; simplify_eq
  end.

(** A delivery that read its row leaves it, if it is still there, with a
    status other than SCHEDULED. *)
Lemma found_row_left_terminal d r w row0 row :
  exec task d = (r, w) →
  TaskRead task_id (Some row0) ∈ log w →
  calculation_tasks (db w) !! task_id = Some row →
  task_status row ≠ SCHEDULED.
Proof.
  intros He Hin Hrow. apply exec_task_inv in He.
  destruct He; in_log Hin; simplify_eq; simpl in Hrow.
  - same_store. done.
  - rewrite lookup_insert_eq in Hrow. simplify_eq. simpl. discriminate.
  - rewrite lookup_alter_eq in Hrow.
    destruct (calculation_tasks d2 !! task_id); simpl in Hrow; simplify_eq.
    simpl. discriminate.
Qed.

(** X4: after a delivery that found its row (and so completed it, failed
    on it, or skipped it), delivering the same task again, with the lock
    free and the user and the row still there, does nothing: it reads the
    row, returns, and neither computes nor writes. *)
Theorem redelivery_after_found_row_is_noop d r w row0 row :
  exec task d = (r, w) →
  TaskRead task_id (Some row0) ∈ log w →
  user_id ∈ auth_user (db w) →
  lock_wait {[user_id]} (db w) = inr (db w) →
  calculation_tasks (db w) !! task_id = Some row →
  exec task (db w) =
    (Returned,
     mkWorld (db w) ∅ (under_lock user_id [TaskRead task_id (Some row)] [])).
Proof.
  intros He Hin Hu Hl Hrow.
  pose proof (found_row_left_terminal d r w row0 row He Hin Hrow) as Hs.
  pose proof (exec_task_path lock_wait calculate_max_concurrent_usage
                schedule_concurrent_calculation_task task_id date user_id
                (db w)) as P.
  destruct (exec task (db w)) as [r2 w2]. simpl in P.
  destruct P; same_store; try done; congruence.
Qed.

(** X5: the delivery itself writes nothing but the row of its task
    identifier: any view of the store that does not depend on that row and
    that the lock wait, the calculator and the scheduler leave alone is the
    same after the delivery as before. *)
Theorem task_writes_nothing_but_its_row {A} (view : DB → A) d r w :
  (∀ f d0, (∀ m t, t ≠ task_id → f m !! t = m !! t) →
           view (set_calculation_tasks f d0) = view d0) →
  (∀ ids d0 d1, lock_wait ids d0 = inr d1 → view d1 = view d0) →
  (∀ d0, view (calculate_max_concurrent_usage date user_id d0).2 = view d0) →
  (∀ d0, view (schedule_concurrent_calculation_task date user_id d0).2
         = view d0) →
  exec task d = (r, w) →
  view (db w) = view d.
Proof.
  intros Hrow Hlock Hcalc Hsched He. apply exec_task_inv in He.
  assert (Hupd : ∀ s d0, view (update_status task_id s d0) = view d0).
  { intros s d0. apply Hrow. intros m t Ht. by rewrite lookup_alter_ne. }
  assert (Hins : ∀ row d0,
            view (set_calculation_tasks (insert task_id row) d0) = view d0).
  { intros row d0. apply Hrow. intros m t Ht. by rewrite lookup_insert_ne. }
  destruct He; cbn [db]; rewrite ?Hupd, ?Hins; try done;
    repeat match goal with
    | H : lock_wait _ _ = inr _ |- _ => apply Hlock in H
    | H : calculate_max_concurrent_usage _ _ ?d1 = (_, ?d2) |- _ =>
        let E := fresh in
        pose proof (Hcalc d1) as E; rewrite H in E; simpl in E; clear H
    | H : schedule_concurrent_calculation_task _ _ ?d1 = (_, ?d2) |- _ =>
        let E := fresh in
        pose proof (Hsched d1) as E; rewrite H in E; simpl in E; clear H
    end; congruence.
Qed.

End TaskDeliveries.

Section TaskDeliveryExamples.

Import Scenario.

Lemma raised_iff_error_recorded_witness :
  ∃ w,
    exec (calculate_max_concurrent_usage_task lock_free calculator_fails
            scheduler "task-1" new_year 1) (store (task_in SCHEDULED))
      = (Raised (OtherError "database is down"), w) ∧
    status_written "task-1" ERROR (log w) = true ∧
    last (log w) = Some (TaskStatusUpdated "task-1" ERROR) ∧
    ∀ row, calculation_tasks (db w) !! "task-1" = Some row →
           task_status row = ERROR.
Proof.
  eexists. split; [reflexivity|].
  destruct (raised_iff_error_recorded lock_free calculator_fails scheduler
              "task-1" new_year 1 (store (task_in SCHEDULED)) _ _ eq_refl)
    as [[Hwritten _] Hlast].
  split; [apply Hwritten; by eexists | exact (Hlast _ eq_refl)].
Defined.

Lemma writes_own_row_never_scheduled_witness :
  status_written "task-1" COMPLETE
    (log (exec (calculate_max_concurrent_usage_task lock_free calculator
                  scheduler "task-1" new_year 1)
            (store (task_in SCHEDULED))).2) = true ∧
  COMPLETE ≠ SCHEDULED.
Proof.
  split; [reflexivity|].
  exact (proj2 (writes_own_row_never_scheduled lock_free calculator
                  scheduler "task-1" new_year 1 (store (task_in SCHEDULED))
                  _ _ "task-1" COMPLETE eq_refl eq_refl)).
Defined.

Lemma reschedules_or_computes_never_both_witness :
  ∃ w,
    exec (calculate_max_concurrent_usage_task lock_free calculator scheduler
            "task-1" new_year 1) (store ∅) = (Returned, w) ∧
    invoked is_Schedule (log w) = true ∧
    invoked is_Calculate (log w) = false ∧
    TaskRead "task-1" None ∈ log w.
Proof.
  eexists. split; [reflexivity|]. split; [reflexivity|].
  pose proof (reschedules_or_computes_never_both lock_free calculator
                scheduler "task-1" new_year 1 (store ∅)) as H.
  destruct (H _ _ eq_refl) as [Hs _].
  destruct (Hs eq_refl) as (Hno & Hread & _).
  split; [exact Hno | exact Hread].
Defined.

Lemma redelivery_after_found_row_is_noop_witness :
  ∃ w,
    exec (calculate_max_concurrent_usage_task lock_free calculator scheduler
            "task-1" new_year 1) (store (task_in SCHEDULED))
      = (Returned, w) ∧
    TaskRead "task-1" (Some (mkTask 1 new_year SCHEDULED)) ∈ log w ∧
    1 ∈ auth_user (db w) ∧
    lock_free {[1]} (db w) = inr (db w) ∧
    calculation_tasks (db w) !! "task-1"
      = Some (mkTask 1 new_year COMPLETE) ∧
    exec (calculate_max_concurrent_usage_task lock_free calculator scheduler
            "task-1" new_year 1) (db w)
      = (Returned,
         mkWorld (db w) ∅
           (under_lock 1
              [TaskRead "task-1" (Some (mkTask 1 new_year COMPLETE))] [])).
Proof.
  eexists. split; [reflexivity|].
  assert (Hread : TaskRead "task-1" (Some (mkTask 1 new_year SCHEDULED))
                  ∈ [LockAcquired {[1]};
                     TaskRead "task-1" (Some (mkTask 1 new_year SCHEDULED));
                     Called (Calculate new_year 1) None;
                     TaskSaved "task-1" (mkTask 1 new_year COMPLETE);
                     LockReleased {[1]}])
    by (apply list_elem_of_further, list_elem_of_here).
  split; [exact Hread|].
  assert (Hu : 1 ∈ ({[1]} : gset Z)) by (vm_compute; reflexivity).
  split; [exact Hu|]. split; [reflexivity|]. split; [reflexivity|].
  exact (redelivery_after_found_row_is_noop lock_free calculator scheduler
           "task-1" new_year 1 (store (task_in SCHEDULED)) _ _ _ _
           eq_refl Hread Hu eq_refl eq_refl).
Defined.

Lemma task_writes_nothing_but_its_row_witness :
  ∃ w,
    exec (calculate_max_concurrent_usage_task lock_free calculator_fails
            scheduler "task-1" new_year 1) (store (task_in SCHEDULED))
      = (Raised (OtherError "database is down"), w) ∧
    concurrent_usage (db w) = concurrent_usage (store (task_in SCHEDULED)).
Proof.
  eexists. split; [reflexivity|].
  pose proof (task_writes_nothing_but_its_row lock_free calculator_fails
                scheduler "task-1" new_year 1 concurrent_usage
                (store (task_in SCHEDULED))) as H.
  apply (H (Raised (OtherError "database is down")) _).
  - reflexivity.
  - intros ids d0 d1 Hl. injection Hl as <-. reflexivity.
  - reflexivity.
  - reflexivity.
  - reflexivity.
Defined.

End TaskDeliveryExamples.

(** ** Deleting cloud accounts *)

Section Deleting.

Variable lock_wait : gset Z → DB → exn + DB.
Variable CloudAccount_filter_delete : Z → DB → option exn * DB.
Variable extract_ids_from_kafka_message :
  gmap string Z → list (string * string) → option string * option Z.
Variable CloudAccount_filter_platform : Z → Z → DB → list CloudAccount.

Abbreviation delete_all :=
  (_delete_cloud_accounts lock_wait CloudAccount_filter_delete).

(** One turn of the loop, for an account whose user is found: what the
    [with] block of one account does. *)
Lemma delete_turn cloud_account rest w :
  account_user_id cloud_account ∈ auth_user (db w) →
  delete_all (cloud_account :: rest) w =
    let user := {[account_user_id cloud_account]} in
    let id := account_id cloud_account in
    match lock_wait user (db w) with
    | inl e => (Raise e, w)
    | inr d1 =>
        match cloud_accounts d1 !! id with
        | None =>
            delete_all rest
              (mkWorld d1 ((held w ∪ user) ∖ user)
                 (log w ++ [LockAcquired user; LockReleased user]))
        | Some _ =>
            let r := CloudAccount_filter_delete id d1 in
            let w1 :=
              mkWorld r.2 ((held w ∪ user) ∖ user)
                (log w ++ [LockAcquired user; Called (DeleteAccount id) r.1;
                           LockReleased user]) in
            match r.1 with
            | None => delete_all rest w1
            | Some e =>
                if bool_decide (e = DoesNotExist CloudAccountModel)
                then delete_all rest w1 else (Raise e, w1)
            end
        end
    end.
Proof.
  intros Huser. rewrite delete_all_cons, bool_decide_eq_true_2 by done.
  unfold mbind at 1, M_bind at 1, lock_task_for_user_ids. simpl.
  rewrite union_empty_r_L.
  destruct (lock_wait _ (db w)) as [e|d1]; [reflexivity|]. simpl.
  unfold try_except, mbind, M_bind, CloudAccount_refresh_from_db, extern,
    pass, mret, M_ret. simpl.
  destruct (cloud_accounts d1 !! account_id cloud_account); simpl.
  - destruct (CloudAccount_filter_delete _ d1) as [[e|] d2]; simpl.
    + destruct (bool_decide (e = DoesNotExist CloudAccountModel)); simpl;
        by rewrite ?union_empty_r_L, <- !app_assoc.
    + by rewrite ?union_empty_r_L, <- !app_assoc.
  - by rewrite ?union_empty_r_L, <- !app_assoc.
Qed.

(** X6: a failure of the deletion of one account (of a user who is found),
    other than the account being gone, ends the loop there: the exception
    reaches the caller, the lock is given back, and the accounts after it
    are not looked at. *)
Theorem deletion_stops_at_first_failure cloud_account rest d d1 e :
  account_user_id cloud_account ∈ auth_user d →
  lock_wait {[account_user_id cloud_account]} d = inr d1 →
  is_Some (cloud_accounts d1 !! account_id cloud_account) →
  (CloudAccount_filter_delete (account_id cloud_account) d1).1 = Some e →
  e ≠ DoesNotExist CloudAccountModel →
  exec (delete_all (cloud_account :: rest)) d =
    (Raised e,
     mkWorld (CloudAccount_filter_delete (account_id cloud_account) d1).2 ∅
       [LockAcquired {[account_user_id cloud_account]};
        Called (DeleteAccount (account_id cloud_account)) (Some e);
        LockReleased {[account_user_id cloud_account]}]).
Proof.
  intros Hu Hl [u Hrow] Hd Hne. unfold exec. rewrite delete_turn by done.
  simpl. rewrite Hl, Hrow, Hd. rewrite bool_decide_eq_false_2 by done.
  by rewrite released.
Qed.

(** X7: an account that is already gone, while its user is still there, is
    not an error.  Whether the row is missing when the lock is obtained
    (then no deletion is attempted) or the deletion itself reports
    [CloudAccount.DoesNotExist], the lock is given back and the loop goes
    on with the remaining accounts. *)
Theorem gone_account_is_skipped cloud_account rest w d1 :
  account_user_id cloud_account ∈ auth_user (db w) →
  lock_wait {[account_user_id cloud_account]} (db w) = inr d1 →
  (cloud_accounts d1 !! account_id cloud_account = None →
   _delete_cloud_accounts lock_wait CloudAccount_filter_delete
     (cloud_account :: rest) w =
     _delete_cloud_accounts lock_wait CloudAccount_filter_delete rest
       (mkWorld d1
          ((held w ∪ {[account_user_id cloud_account]})
             ∖ {[account_user_id cloud_account]})
          (log w ++ [LockAcquired {[account_user_id cloud_account]};
                     LockReleased {[account_user_id cloud_account]}]))) ∧
  (is_Some (cloud_accounts d1 !! account_id cloud_account) →
   (CloudAccount_filter_delete (account_id cloud_account) d1).1
     = Some (DoesNotExist CloudAccountModel) →
   _delete_cloud_accounts lock_wait CloudAccount_filter_delete
     (cloud_account :: rest) w =
     _delete_cloud_accounts lock_wait CloudAccount_filter_delete rest
       (mkWorld (CloudAccount_filter_delete (account_id cloud_account) d1).2
          ((held w ∪ {[account_user_id cloud_account]})
             ∖ {[account_user_id cloud_account]})
          (log w ++ [LockAcquired {[account_user_id cloud_account]};
                     Called (DeleteAccount (account_id cloud_account))
                       (Some (DoesNotExist CloudAccountModel));
                     LockReleased {[account_user_id cloud_account]}]))).
Proof.
  intros Hu Hl. split.
  - intros Hrow. rewrite delete_turn by done. simpl. by rewrite Hl, Hrow.
  - intros [u Hrow] Hd. rewrite delete_turn by done. simpl.
    by rewrite Hl, Hrow, Hd.
Qed.

(** X27: an account whose user is gone ends the loop: the fetch of the user
    raises [User.DoesNotExist] before the lock is asked for and outside the
    [try], so nothing is locked or deleted and the accounts after it are
    not looked at, although its own row is gone as well or will never be
    deleted. *)
Theorem gone_user_ends_the_loop cloud_account rest d :
  account_user_id cloud_account ∉ auth_user d →
  exec (_delete_cloud_accounts lock_wait CloudAccount_filter_delete
          (cloud_account :: rest)) d
    = (Raised (DoesNotExist UserModel), mkWorld d ∅ []).
Proof.
  intros Hu. unfold exec. by rewrite delete_all_user_gone.
Qed.

Lemma deletion_effect_further cloud_account rest ev :
  deletion_effect rest ev → deletion_effect (cloud_account :: rest) ev.
Proof.
  destruct ev as [ids|ids| | | | |[] o]; simpl; try done;
    intros (a & Hin & H); exists a; (split; [by right | done]).
Qed.

Lemma deletion_effects accounts : ∀ w,
  ∃ new, log (delete_all accounts w).2 = log w ++ new ∧
         Forall (deletion_effect accounts) new.
Proof.
  induction accounts as [|cloud_account rest IH]; intros w.
  { exists []. split; [by rewrite app_nil_r | constructor]. }
  assert (Hhere : ∀ a, a = cloud_account → a ∈ cloud_account :: rest)
    by (intros a ->; left).
  assert (Hlock : deletion_effect (cloud_account :: rest)
                    (LockAcquired {[account_user_id cloud_account]})).
  { exists cloud_account. split; [by left | done]. }
  assert (Hunlock : deletion_effect (cloud_account :: rest)
                      (LockReleased {[account_user_id cloud_account]})).
  { exists cloud_account. split; [by left | done]. }
  assert (Hcall : ∀ o, deletion_effect (cloud_account :: rest)
                    (Called (DeleteAccount (account_id cloud_account)) o)).
  { intros o. exists cloud_account. split; [by left | done]. }
  assert (Hrest : ∀ w1 pre,
            log w1 = log w ++ pre →
            Forall (deletion_effect (cloud_account :: rest)) pre →
            ∃ new, log (delete_all rest w1).2 = log w ++ new ∧
                   Forall (deletion_effect (cloud_account :: rest)) new).
  { intros w1 pre Hlog Hpre. destruct (IH w1) as (new & Hnew & Hall).
    exists (pre ++ new). split.
    - by rewrite Hnew, Hlog, app_assoc.
    - apply Forall_app. split; [done|].
      eapply Forall_impl; [exact Hall|].
      intros ev. apply deletion_effect_further. }
  destruct (decide (account_user_id cloud_account ∈ auth_user (db w)))
    as [Hu|Hu]; [|rewrite delete_all_user_gone by done;
                   exists []; split; [by rewrite app_nil_r | constructor]].
  rewrite delete_turn by done. simpl.
  destruct (lock_wait _ (db w)) as [e|d1].
  { exists []. split; [by rewrite app_nil_r | constructor]. }
  destruct (cloud_accounts d1 !! account_id cloud_account).
  - destruct (CloudAccount_filter_delete _ d1) as [[e|] d2]; simpl.
    + destruct (bool_decide (e = DoesNotExist CloudAccountModel)).
      * eapply Hrest; [reflexivity|]. repeat constructor; auto.
      * eexists. split; [reflexivity|]. repeat constructor; auto.
    + eapply Hrest; [reflexivity|]. repeat constructor; auto.
  - eapply Hrest; [reflexivity|]. repeat constructor; auto.
Qed.

(** X8: the loop touches nothing but the accounts it was given: every
    effect of an execution is the taking or the release of the lock of a
    listed account's user, or the deletion of a listed account. *)
Theorem deletes_only_listed_accounts accounts d :
  Forall (deletion_effect accounts)
    (log (exec (delete_all accounts) d).2).
Proof.
  destruct (deletion_effects accounts (mkWorld d ∅ [])) as (new & Hlog & H).
  unfold exec. destruct (delete_all accounts _) as [[[]| |e] w1];
    simpl in *; by rewrite Hlog.
Qed.

Abbreviation delete_by_id :=
  (delete_cloud_account lock_wait CloudAccount_filter_delete).
Abbreviation delete_from_message :=
  (delete_from_sources_kafka_message lock_wait CloudAccount_filter_delete
     extract_ids_from_kafka_message CloudAccount_filter_platform).

(** X9: [delete_cloud_account] with an unknown id does nothing and returns;
    with a known id it deletes that account, once, under the lock of the
    user who owned the row when the task started, and a failure to get
    that lock is raised with nothing done; so is the failure to find the
    row of that user. *)
Theorem delete_cloud_account_by_id cloud_account_id d :
  (cloud_accounts d !! cloud_account_id = None →
   exec (delete_by_id cloud_account_id) d = (Returned, mkWorld d ∅ [])) ∧
  (∀ owner,
     cloud_accounts d !! cloud_account_id = Some owner →
     owner ∉ auth_user d →
     exec (delete_by_id cloud_account_id) d
       = (Raised (DoesNotExist UserModel), mkWorld d ∅ [])) ∧
  (∀ owner e,
     cloud_accounts d !! cloud_account_id = Some owner →
     owner ∈ auth_user d →
     lock_wait {[owner]} d = inl e →
     exec (delete_by_id cloud_account_id) d = (Raised e, mkWorld d ∅ [])) ∧
  (∀ owner d1,
     cloud_accounts d !! cloud_account_id = Some owner →
     owner ∈ auth_user d →
     lock_wait {[owner]} d = inr d1 →
     is_Some (cloud_accounts d1 !! cloud_account_id) →
     let r := CloudAccount_filter_delete cloud_account_id d1 in
     exec (delete_by_id cloud_account_id) d =
       (match r.1 with
        | None => Returned
        | Some e =>
            if bool_decide (e = DoesNotExist CloudAccountModel)
            then Returned else Raised e
        end,
        mkWorld r.2 ∅
          [LockAcquired {[owner]};
           Called (DeleteAccount cloud_account_id) r.1;
           LockReleased {[owner]}])).
Proof.
  split; [|split; [|split]].
  - intros Hrow. unfold exec, delete_cloud_account, mbind, M_bind,
      CloudAccount_filter_id. simpl. by rewrite Hrow.
  - intros owner Hrow Hu. unfold exec, delete_cloud_account.
    unfold mbind at 1, M_bind at 1, CloudAccount_filter_id. simpl.
    by rewrite Hrow, delete_all_user_gone.
  - intros owner e Hrow Hu Hl. unfold exec, delete_cloud_account.
    unfold mbind at 1, M_bind at 1, CloudAccount_filter_id. simpl.
    rewrite Hrow, delete_turn by done. simpl. by rewrite Hl.
  - intros owner d1 Hrow Hu Hl [u Hrow1]. unfold exec, delete_cloud_account.
    unfold mbind at 1, M_bind at 1, CloudAccount_filter_id. simpl.
    rewrite Hrow, delete_turn by done. simpl. rewrite Hl, Hrow1, released.
    destruct (CloudAccount_filter_delete cloud_account_id d1) as [[e|] d2];
      simpl; [|reflexivity].
    by destruct (bool_decide (e = DoesNotExist CloudAccountModel)).
Qed.

(** X10: a Sources message from which the account number or the platform
    id cannot be extracted is dropped: the task returns and nothing is
    locked or deleted.  A message with both but without the
    [authentication_id] key, or with it but without [application_id], ends
    in a [KeyError] for that key, again before anything is locked or
    deleted. *)
Theorem incomplete_message_deletes_nothing message headers d :
  let ids := extract_ids_from_kafka_message message headers in
  (ids.1 = None ∨ ids.2 = None →
   exec (delete_from_message message headers) d
     = (Returned, mkWorld d ∅ [])) ∧
  (is_Some ids.1 → is_Some ids.2 →
   message !! "authentication_id" = None →
   exec (delete_from_message message headers) d
     = (Raised (OtherError "KeyError: authentication_id"),
        mkWorld d ∅ [])) ∧
  (is_Some ids.1 → is_Some ids.2 →
   is_Some (message !! "authentication_id") →
   message !! "application_id" = None →
   exec (delete_from_message message headers) d
     = (Raised (OtherError "KeyError: application_id"), mkWorld d ∅ [])).
Proof.
  assert (Hboth : ∀ a b : option string, ∀ c : option Z,
            True → is_Some a → is_Some c → ¬ (a = None ∨ c = None)).
  { intros a b c _ [? ->] [? ->] [?|?]; discriminate. }
  simpl. split; [|split].
  - intros Hnone. unfold exec, delete_from_sources_kafka_message, mbind,
      M_bind, return_. simpl. by rewrite bool_decide_eq_true_2.
  - intros H1 H2 Hkey. unfold exec, delete_from_sources_kafka_message,
      mbind, M_bind, return_, pass, mret, M_ret, message_item. simpl.
    rewrite bool_decide_eq_false_2 by (by apply (Hboth _ None)).
    by rewrite Hkey.
  - intros H1 H2 [v Hkey] Hkey2. unfold exec,
      delete_from_sources_kafka_message, mbind, M_bind, return_, pass,
      mret, M_ret, message_item. simpl.
    rewrite bool_decide_eq_false_2 by (by apply (Hboth _ None)).
    by rewrite Hkey, Hkey2.
Qed.

End Deleting.

Section DeletingExamples.

Import Scenario.

Lemma deletion_stops_at_first_failure_witness :
  1 ∈ auth_user account_store ∧
  lock_free {[1]} account_store = inr account_store ∧
  is_Some (cloud_accounts account_store !! 10) ∧
  (deleter_fails 10 account_store).1
    = Some (OtherError "cloud trail cannot be disabled") ∧
  OtherError "cloud trail cannot be disabled"
    ≠ DoesNotExist CloudAccountModel ∧
  exec (_delete_cloud_accounts lock_free deleter_fails
          [mkAccount 10 1; mkAccount 11 1]) account_store
    = (Raised (OtherError "cloud trail cannot be disabled"),
       mkWorld account_store ∅
         [LockAcquired {[1]};
          Called (DeleteAccount 10)
            (Some (OtherError "cloud trail cannot be disabled"));
          LockReleased {[1]}]).
Proof.
  assert (Hu : 1 ∈ auth_user account_store) by (vm_compute; reflexivity).
  assert (Hrow : is_Some (cloud_accounts account_store !! 10))
    by (exists 1; reflexivity).
  assert (Hne : OtherError "cloud trail cannot be disabled"
                ≠ DoesNotExist CloudAccountModel) by discriminate.
  split; [exact Hu|].
  split; [reflexivity|]. split; [exact Hrow|]. split; [reflexivity|].
  split; [exact Hne|].
  exact (deletion_stops_at_first_failure lock_free deleter_fails
           (mkAccount 10 1) [mkAccount 11 1] account_store account_store _
           Hu eq_refl Hrow eq_refl Hne).
Defined.

Lemma gone_account_is_skipped_witness :
  1 ∈ auth_user account_store ∧
  lock_free {[1]} account_store = inr account_store ∧
  cloud_accounts account_store !! 99 = None ∧
  _delete_cloud_accounts lock_free deleter [mkAccount 99 1; mkAccount 10 1]
      (mkWorld account_store ∅ [])
    = _delete_cloud_accounts lock_free deleter [mkAccount 10 1]
        (mkWorld account_store ((∅ ∪ {[1]}) ∖ {[1]})
           [LockAcquired {[1]}; LockReleased {[1]}]).
Proof.
  assert (Hu : 1 ∈ auth_user account_store) by (vm_compute; reflexivity).
  split; [exact Hu|]. split; [reflexivity|]. split; [reflexivity|].
  exact (proj1 (gone_account_is_skipped lock_free deleter (mkAccount 99 1)
                  [mkAccount 10 1] (mkWorld account_store ∅ [])
                  account_store Hu eq_refl) eq_refl).
Defined.

(** The user 1 went with the account 10: account 11 of user 2 stays. *)
Lemma gone_user_ends_the_loop_witness :
  (1 ∉ auth_user (mkDB {[2]} ∅ ∅ {[11 := 2]} ∅ [])) ∧
  exec (_delete_cloud_accounts lock_free deleter
          [mkAccount 10 1; mkAccount 11 2])
       (mkDB {[2]} ∅ ∅ {[11 := 2]} ∅ [])
    = (Raised (DoesNotExist UserModel),
       mkWorld (mkDB {[2]} ∅ ∅ {[11 := 2]} ∅ []) ∅ []).
Proof.
  assert (Hu : 1 ∉ auth_user (mkDB {[2]} ∅ ∅ {[11 := 2]} ∅ []))
    by (intros H; vm_compute in H; discriminate H).
  split; [exact Hu|].
  exact (gone_user_ends_the_loop lock_free deleter (mkAccount 10 1)
           [mkAccount 11 2] (mkDB {[2]} ∅ ∅ {[11 := 2]} ∅ []) Hu).
Defined.

Lemma delete_cloud_account_by_id_witness :
  cloud_accounts account_store !! 99 = None ∧
  exec (delete_cloud_account lock_free deleter 99) account_store
    = (Returned, mkWorld account_store ∅ []) ∧
  cloud_accounts account_store !! 10 = Some 1 ∧
  1 ∈ auth_user account_store ∧
  lock_times_out {[1]} account_store = inl LockTimeout ∧
  exec (delete_cloud_account lock_times_out deleter 10) account_store
    = (Raised LockTimeout, mkWorld account_store ∅ []) ∧
  exec (delete_cloud_account lock_free deleter 10) account_store
    = (Returned,
       mkWorld (mkDB {[1]} ∅ ∅ (delete 10 {[10 := 1]}) ∅ []) ∅
         [LockAcquired {[1]}; Called (DeleteAccount 10) None;
          LockReleased {[1]}]).
Proof.
  assert (Hu : 1 ∈ auth_user account_store) by (vm_compute; reflexivity).
  destruct (delete_cloud_account_by_id lock_free deleter 99 account_store)
    as (Hmissing & _ & _ & _).
  destruct (delete_cloud_account_by_id lock_times_out deleter 10
              account_store) as (_ & _ & Htimeout & _).
  destruct (delete_cloud_account_by_id lock_free deleter 10 account_store)
    as (_ & _ & _ & Hfound).
  split; [reflexivity|]. split; [exact (Hmissing eq_refl)|].
  split; [reflexivity|]. split; [exact Hu|]. split; [reflexivity|].
  split; [exact (Htimeout 1 LockTimeout eq_refl Hu eq_refl)|].
  exact (Hfound 1 account_store eq_refl Hu eq_refl
           (ex_intro _ 1 eq_refl)).
Defined.

Lemma incomplete_message_deletes_nothing_witness :
  exec (delete_from_sources_kafka_message lock_free deleter
          (λ _ _, (Some "1000001", None)) (λ _ _ _, [mkAccount 10 1])
          {["authentication_id" := 5; "application_id" := 6]} [])
       account_store
    = (Returned, mkWorld account_store ∅ []) ∧
  exec (delete_from_sources_kafka_message lock_free deleter
          (λ _ _, (Some "1000001", Some 7)) (λ _ _ _, [mkAccount 10 1])
          {["application_id" := 6]} [])
       account_store
    = (Raised (OtherError "KeyError: authentication_id"),
       mkWorld account_store ∅ []) ∧
  exec (delete_from_sources_kafka_message lock_free deleter
          (λ _ _, (Some "1000001", Some 7)) (λ _ _ _, [mkAccount 10 1])
          {["authentication_id" := 5]} [])
       account_store
    = (Raised (OtherError "KeyError: application_id"),
       mkWorld account_store ∅ []).
Proof.
  split; [|split].
  - apply (incomplete_message_deletes_nothing lock_free deleter
             (λ _ _, (Some "1000001", None)) (λ _ _ _, [mkAccount 10 1])
             {["authentication_id" := 5; "application_id" := 6]} []
             account_store).
    right. reflexivity.
  - apply (incomplete_message_deletes_nothing lock_free deleter
             (λ _ _, (Some "1000001", Some 7)) (λ _ _ _, [mkAccount 10 1])
             {["application_id" := 6]} [] account_store).
    + by eexists.
    + by eexists.
    + reflexivity.
  - apply (incomplete_message_deletes_nothing lock_free deleter
             (λ _ _, (Some "1000001", Some 7)) (λ _ _ _, [mkAccount 10 1])
             {["authentication_id" := 5]} [] account_store).
    + by eexists.
    + by eexists.
    + by eexists.
    + reflexivity.
Defined.

End DeletingExamples.

(** ** More on incoming events *)

Section EventBranches.

Variable recalculate_runs : InstanceEvent → DB → option exn * DB.
Variable normalize_runs : list InstanceEvent → DB → exn + list NormalizedRun.
Variable calculate_max_concurrent_usage_from_runs :
  list Run → DB → option exn * DB.

Abbreviation process := (process_instance_event recalculate_runs
  normalize_runs calculate_max_concurrent_usage_from_runs).
Abbreviation fresh_tail := (process_fresh_tail normalize_runs
  calculate_max_concurrent_usage_from_runs).

(** X11: while an instance has an open run, every event of that instance,
    of either kind and with any timestamp, goes to [recalculate_runs], and
    [process_instance_event] does nothing else. *)
Theorem open_run_always_recalculates event run d :
  instance_id event ∈ instances d →
  run ∈ runs d →
  run_instance_id run = instance_id event →
  end_time run = None →
  exec (process event) d =
    (match (recalculate_runs event d).1 with
     | Some e => Raised e
     | None => Returned
     end,
     mkWorld (recalculate_runs event d).2 ∅
       [Called (Recalculate event) (recalculate_runs event d).1]).
Proof.
  intros Hi Hin Hsame Hopen.
  apply (process_touched _ normalize_runs
           calculate_max_concurrent_usage_from_runs); [done|].
  exists run. split; [done|]. split; [done|].
  destruct (Z.lt_ge_cases (occurred_at event) (start_time run)).
  - by left.
  - right. right. split; [lia | done].
Qed.

(** X12: when all runs of the instance are closed and none ends before it
    starts, an event is a correction exactly when it occurs strictly before
    the end of one of them; an event at or after every end, one exactly at
    an end included, is handled as a fresh tail. *)
Theorem closed_runs_recalculate_before_an_end event d r w :
  instance_id event ∈ instances d →
  (∀ run, run ∈ runs d → run_instance_id run = instance_id event →
          ∃ e, end_time run = Some e ∧ start_time run ≤ e) →
  exec (process event) d = (r, w) →
  (invoked is_Recalculate (log w) = true
   ↔ ∃ run e, run ∈ runs d ∧ run_instance_id run = instance_id event ∧
              end_time run = Some e ∧ occurred_at event < e).
Proof.
  intros Hi Hclosed He.
  assert (Hiff : (∃ run, run ∈ runs d ∧ touches event run)
                 ↔ ∃ run e, run ∈ runs d ∧
                      run_instance_id run = instance_id event ∧
                      end_time run = Some e ∧ occurred_at event < e).
  { split.
    - intros (run & Hin & Hsame & Ht).
      destruct (Hclosed run Hin Hsame) as (e & Hend & Hle).
      exists run, e. repeat split; try done.
      destruct Ht as [H|[[H (e' & He' & Hlt)]|[_ H]]]; simplify_eq; lia.
    - intros (run & e & Hin & Hsame & Hend & Hlt).
      exists run. split; [done|]. split; [done|].
      destruct (Z.lt_ge_cases (occurred_at event) (start_time run)).
      + by left.
      + right. left. split; [lia|]. by exists e. }
  rewrite <- Hiff.
  destruct (touched_or_not event (runs d)) as [Ht|Ht].
  - rewrite (process_touched _ normalize_runs
               calculate_max_concurrent_usage_from_runs event d Hi Ht)
      in He. simplify_eq. simpl. done.
  - rewrite (process_untouched recalculate_runs normalize_runs
               calculate_max_concurrent_usage_from_runs event d Hi Ht)
      in He.
    pose proof (fresh_tail_never_recalculates normalize_runs
                  calculate_max_concurrent_usage_from_runs event
                  (mkWorld d ∅ []) eq_refl) as Hn.
    assert (Hw : invoked is_Recalculate (log w) = false).
    { unfold exec in He. destruct (fresh_tail event _) as [[[]| |e] w1];
        by simplify_eq. }
    rewrite Hw. split; [done | by intros ?].
Qed.

(** X13: a power-on that touches no run of its (existing) instance: the
    normalizer is asked about this one event; each run it yields is
    appended to the Run table, in order and after the rows already there;
    then the usage calculation is called once, on exactly the rows just
    saved, and its outcome is the outcome of the whole. *)
Theorem fresh_power_on_saves_the_normalized_runs event d normalized_runs :
  instance_id event ∈ instances d →
  ¬ (∃ run, run ∈ runs d ∧ touches event run) →
  event_type event = power_on →
  normalize_runs [event] d = inr normalized_runs →
  let saved := Run_of <$> normalized_runs in
  let usage :=
    calculate_max_concurrent_usage_from_runs saved
      (set_runs (λ rs, rs ++ saved) d) in
  exec (process event) d =
    (match usage.1 with Some e => Raised e | None => Returned end,
     mkWorld usage.2 ∅
       (Called (Normalize [event]) None :: (RunSaved <$> saved)
        ++ [Called (CalculateFromRuns saved) usage.1])).
Proof.
  intros Hi Ht Hon Hn. simpl.
  rewrite (process_untouched recalculate_runs normalize_runs
             calculate_max_concurrent_usage_from_runs event d Hi Ht).
  unfold exec, process_fresh_tail. rewrite Hon. simpl.
  unfold mbind, M_bind, extern_read, extern. simpl. rewrite Hn.
  rewrite save_normalized_runs_spec. simpl.
  by destruct (calculate_max_concurrent_usage_from_runs _ _) as [[e|] d'].
Qed.

(** X14: the two failures that come before any write leave the store as it
    was.  An event whose instance row is missing ends in
    [Instance.DoesNotExist] with nothing called, whatever runs there are;
    a fresh power-on whose normalization raises ends in that exception with
    no run saved and no usage calculation asked for. *)
Theorem event_failures_write_nothing event d :
  (instance_id event ∉ instances d →
   exec (process event) d
     = (Raised (DoesNotExist InstanceModel), mkWorld d ∅ [])) ∧
  (∀ e,
     instance_id event ∈ instances d →
     ¬ (∃ run, run ∈ runs d ∧ touches event run) →
     event_type event = power_on →
     normalize_runs [event] d = inl e →
     exec (process event) d
       = (Raised e, mkWorld d ∅ [Called (Normalize [event]) (Some e)])).
Proof.
  split.
  - intros Hi. unfold exec, process_instance_event, mbind, M_bind,
      Instance_get. simpl. by rewrite bool_decide_eq_false_2.
  - intros e Hi Ht Hon Hn.
    rewrite (process_untouched recalculate_runs normalize_runs
               calculate_max_concurrent_usage_from_runs event d Hi Ht).
    unfold exec, process_fresh_tail. rewrite Hon. simpl.
    unfold mbind, M_bind, extern_read. simpl. by rewrite Hn.
Qed.

End EventBranches.

Section EventBranchExamples.

Import Scenario.

(** Instance 7 has been on since 13:00; the power-off at 14:00 that would
    end the run goes to recalculation. *)
Lemma open_run_always_recalculates_witness :
  7 ∈ instances (instance_store [mkRun 46800 None 3 7 "t2.micro" 4 2]) ∧
  mkRun 46800 None 3 7 "t2.micro" 4 2
    ∈ runs (instance_store [mkRun 46800 None 3 7 "t2.micro" 4 2]) ∧
  exec (process_instance_event recalculator normalizer usage_from_runs
          (mkEvent 7 power_off 50400))
       (instance_store [mkRun 46800 None 3 7 "t2.micro" 4 2])
    = (Returned,
       mkWorld (instance_store [mkRun 46800 None 3 7 "t2.micro" 4 2]) ∅
         [Called (Recalculate (mkEvent 7 power_off 50400)) None]).
Proof.
  assert (Hi : 7 ∈ instances
                 (instance_store [mkRun 46800 None 3 7 "t2.micro" 4 2]))
    by (vm_compute; reflexivity).
  assert (Hin : mkRun 46800 None 3 7 "t2.micro" 4 2
                ∈ runs (instance_store
                          [mkRun 46800 None 3 7 "t2.micro" 4 2]))
    by apply list_elem_of_here.
  split; [exact Hi|]. split; [exact Hin|].
  exact (open_run_always_recalculates recalculator normalizer
           usage_from_runs (mkEvent 7 power_off 50400) _ _ Hi Hin eq_refl
           eq_refl).
Defined.

(** An event at 12:00 sharp, the end of the morning run, is not a
    correction. *)
Lemma closed_runs_recalculate_before_an_end_witness :
  7 ∈ instances (instance_store [morning_run]) ∧
  (∀ run, run ∈ runs (instance_store [morning_run]) →
          run_instance_id run = 7 →
          ∃ e, end_time run = Some e ∧ start_time run ≤ e) ∧
  ∃ w,
    exec (process_instance_event recalculator normalizer usage_from_runs
            (mkEvent 7 power_off 43200)) (instance_store [morning_run])
      = (Returned, w) ∧
    (invoked is_Recalculate (log w) = true
     ↔ ∃ run e, run ∈ runs (instance_store [morning_run]) ∧
                run_instance_id run = 7 ∧
                end_time run = Some e ∧ 43200 < e).
Proof.
  assert (Hi : 7 ∈ instances (instance_store [morning_run]))
    by (vm_compute; reflexivity).
  assert (Hclosed : ∀ run, run ∈ runs (instance_store [morning_run]) →
                    run_instance_id run = 7 →
                    ∃ e, end_time run = Some e ∧ start_time run ≤ e).
  { intros run Hin _. apply list_elem_of_singleton in Hin. subst run.
    exists 43200. split; [reflexivity | simpl; lia]. }
  split; [exact Hi|]. split; [exact Hclosed|].
  eexists. split; [reflexivity|].
  exact (closed_runs_recalculate_before_an_end recalculator normalizer
           usage_from_runs (mkEvent 7 power_off 43200)
           (instance_store [morning_run]) _ _ Hi Hclosed eq_refl).
Defined.

Lemma fresh_power_on_saves_the_normalized_runs_witness :
  7 ∈ instances (instance_store [morning_run]) ∧
  ¬ (∃ run, run ∈ runs (instance_store [morning_run]) ∧
            touches (mkEvent 7 power_on 46800) run) ∧
  exec (process_instance_event recalculator normalizer usage_from_runs
          (mkEvent 7 power_on 46800)) (instance_store [morning_run])
    = (Returned,
       mkWorld
         (instance_store
            [morning_run; mkRun 46800 None 3 7 "t2.micro" 4 2]) ∅
         [Called (Normalize [mkEvent 7 power_on 46800]) None;
          RunSaved (mkRun 46800 None 3 7 "t2.micro" 4 2);
          Called (CalculateFromRuns
                    [mkRun 46800 None 3 7 "t2.micro" 4 2]) None]).
Proof.
  assert (Hi : 7 ∈ instances (instance_store [morning_run]))
    by (vm_compute; reflexivity).
  assert (Ht : ¬ (∃ run, run ∈ runs (instance_store [morning_run]) ∧
                         touches (mkEvent 7 power_on 46800) run)).
  { intros (run & Hin & _ & H). apply list_elem_of_singleton in Hin.
    subst run. simpl in H.
    destruct H as [H|[[_ (e & He & H)]|[_ H]]].
    - lia.
    - simplify_eq. lia.
    - discriminate H. }
  split; [exact Hi|]. split; [exact Ht|].
  exact (fresh_power_on_saves_the_normalized_runs recalculator normalizer
           usage_from_runs (mkEvent 7 power_on 46800)
           (instance_store [morning_run]) _ Hi Ht eq_refl eq_refl).
Defined.

Lemma event_failures_write_nothing_witness :
  (8 ∉ instances (instance_store [morning_run])) ∧
  exec (process_instance_event recalculator normalizer usage_from_runs
          (mkEvent 8 power_on 39600)) (instance_store [morning_run])
    = (Raised (DoesNotExist InstanceModel),
       mkWorld (instance_store [morning_run]) ∅ []) ∧
  exec (process_instance_event recalculator
          (λ _ _, inl (OtherError "no image for the instance"))
          usage_from_runs (mkEvent 7 power_on 46800))
       (instance_store [])
    = (Raised (OtherError "no image for the instance"),
       mkWorld (instance_store []) ∅
         [Called (Normalize [mkEvent 7 power_on 46800])
            (Some (OtherError "no image for the instance"))]).
Proof.
  assert (Hmissing : 8 ∉ instances (instance_store [morning_run]))
    by (intros H; vm_compute in H; discriminate H).
  assert (Hi : 7 ∈ instances (instance_store []))
    by (vm_compute; reflexivity).
  assert (Ht : ¬ (∃ run, run ∈ runs (instance_store []) ∧
                         touches (mkEvent 7 power_on 46800) run)).
  { intros (run & Hin & _). by apply elem_of_nil in Hin. }
  split; [exact Hmissing|]. split.
  - exact (proj1 (event_failures_write_nothing recalculator normalizer
                    usage_from_runs (mkEvent 8 power_on 39600)
                    (instance_store [morning_run])) Hmissing).
  - exact (proj2 (event_failures_write_nothing recalculator
                    (λ _ _, inl (OtherError "no image for the instance"))
                    usage_from_runs (mkEvent 7 power_on 46800)
                    (instance_store [])) _ Hi Ht eq_refl eq_refl).
Defined.

End EventBranchExamples.

(** ** The API exception handler *)

Section ApiExceptionHandler.

Import Handler.

Lemma issubclass_Subclass name b s k :
  tested k → issubclass (Subclass name b s) k = issubclass b k.
Proof.
  intros Hk. unfold issubclass. cbn [mro]. apply bool_decide_ext.
  rewrite elem_of_cons. split; [|by right].
  intros [->|H]; [|done]. by destruct Hk as [?|[?|[?|?]]].
Qed.

(** A class has one line of bases, so it is below at most one of the four
    tested classes. *)
Lemma tested_classes_exclusive c k1 k2 :
  tested k1 → tested k2 →
  issubclass c k1 = true → issubclass c k2 = true → k1 = k2.
Proof.
  intros H1 H2. induction c;
    try (destruct H1 as [-> | [-> | [-> | ->]]]; destruct H2 as [-> | [-> | [-> | ->]]];
         vm_compute; congruence).
  rewrite !issubclass_Subclass by done. exact IHc.
Qed.

Lemma status_code_Subclass name b s :
  status_code (Subclass name b s) =
  match s with Some z => Some z | None => status_code b end.
Proof.
  unfold status_code. cbn [mro fmap list_fmap own_status_code list_find].
  destruct s as [z|]; simpl; [reflexivity|].
  by destruct (list_find is_Some _) as [[i o]|].
Qed.

Lemma api_status_defined c :
  issubclass c APIException = true → is_Some (status_code c).
Proof.
  induction c; intros H;
    try (vm_compute in H; discriminate H);
    try (vm_compute; eexists; reflexivity).
  revert H. rewrite issubclass_Subclass by (unfold tested; auto).
  rewrite status_code_Subclass.
  match goal with
  | |- context [match ?s with Some _ => _ | None => _ end] => destruct s
  end; [by eexists | exact IHc].
Qed.

Lemma not_instance exc k1 k2 :
  tested k1 → tested k2 → k1 ≠ k2 →
  isinstance exc k1 = true → isinstance exc k2 = false.
Proof.
  intros H1 H2 Hne Hi. apply not_true_is_false. intros Hj.
  by pose proof (tested_classes_exclusive _ _ _ H1 H2 Hi Hj).
Qed.

(** X15: the handler answers for every exception: where the framework's
    own handler returns no response (any exception that is not an API
    exception or one of the two Django ones), this one still does. *)
Theorem handler_always_responds exc :
  is_Some (api_exception_handler exc).2 ∧
  (isinstance exc APIException = false →
   isinstance exc Http404 = false →
   isinstance exc PermissionDenied = false →
   exception_handler exc = None).
Proof.
  split.
  - unfold api_exception_handler.
    destruct (isinstance exc Http404) eqn:H404; [by eexists|].
    destruct (isinstance exc PermissionDenied) eqn:H403; [by eexists|].
    destruct (isinstance exc NotImplementedError) eqn:H501; [by eexists|].
    destruct (isinstance exc APIException) eqn:Hapi; [|by eexists].
    simpl. unfold exception_handler. rewrite H404, H403, Hapi.
    destruct (api_status_defined _ Hapi) as [s Hs]. rewrite Hs.
    by eexists.
  - intros Hapi H404 H403. unfold exception_handler.
    by rewrite H404, H403, Hapi.
Qed.

(** X16: an exception that is not an API exception never shows in the
    response: the body carries the default detail of the class it is
    replaced by, whatever the exception said, and the status is 404 for
    [Http404], 403 for [PermissionDenied], 501 for [NotImplementedError]
    and 500 for everything else; the last two are logged, the first two
    are not. *)
Theorem foreign_exceptions_are_masked exc :
  isinstance exc APIException = false →
  api_exception_handler exc =
    if isinstance exc Http404
    then (false, Some (mkResponse 404 NotFound None))
    else if isinstance exc PermissionDenied
    then (false, Some (mkResponse 403 DrfPermissionDenied None))
    else if isinstance exc NotImplementedError
    then (true, Some (mkResponse 501 NotImplementedAPIException None))
    else (true, Some (mkResponse 500 APIException None)).
Proof.
  intros Hapi. unfold api_exception_handler.
  destruct (isinstance exc Http404); [reflexivity|].
  destruct (isinstance exc PermissionDenied); [reflexivity|].
  destruct (isinstance exc NotImplementedError); [reflexivity|].
  by rewrite Hapi.
Qed.

(** X17: an API exception, of the framework, of the file or derived from
    them, goes through as it is: the response has the status code of its
    class and the detail it was raised with, and nothing is logged. *)
Theorem api_exceptions_pass_through exc :
  isinstance exc APIException = true →
  ∃ s, status_code (class_of exc) = Some s ∧
       api_exception_handler exc =
         (false, Some (mkResponse s (class_of exc) (detail exc))).
Proof.
  intros Hapi.
  assert (Ht : ∀ k, tested k → k ≠ APIException → isinstance exc k = false).
  { intros k Hk Hne. apply (not_instance exc APIException k);
      unfold tested; auto. }
  destruct (api_status_defined _ Hapi) as [s Hs]. exists s. split; [done|].
  unfold api_exception_handler, exception_handler.
  rewrite (Ht Http404), (Ht PermissionDenied), (Ht NotImplementedError)
    by (unfold tested; auto || discriminate).
  rewrite Hapi. simpl.
  rewrite (Ht Http404), (Ht PermissionDenied)
    by (unfold tested; auto || discriminate).
  by rewrite Hapi, Hs.
Qed.

End ApiExceptionHandler.

Section ApiExceptionHandlerExamples.

Import Handler.

(** A snapshot that is not ready: the framework alone would not answer. *)
Lemma handler_always_responds_witness :
  isinstance (mkException SnapshotNotReadyException (Some "snap-1 pending"))
    APIException = false ∧
  exception_handler
    (mkException SnapshotNotReadyException (Some "snap-1 pending")) = None ∧
  is_Some (api_exception_handler
             (mkException SnapshotNotReadyException
                (Some "snap-1 pending"))).2.
Proof.
  destruct (handler_always_responds
              (mkException SnapshotNotReadyException (Some "snap-1 pending")))
    as [Hresp Hnone].
  split; [reflexivity|].
  split; [exact (Hnone eq_refl eq_refl eq_refl) | exact Hresp].
Defined.

(** The message of an AWS error does not reach the client. *)
Lemma foreign_exceptions_are_masked_witness :
  isinstance (mkException AwsSnapshotError (Some "arn:aws:iam::123:role/x"))
    APIException = false ∧
  api_exception_handler
    (mkException AwsSnapshotError (Some "arn:aws:iam::123:role/x"))
    = (true, Some (mkResponse 500 APIException None)) ∧
  api_exception_handler
    (mkException (Subclass "MyNotFound" Http404 None) (Some "no such image"))
    = (false, Some (mkResponse 404 NotFound None)).
Proof.
  split; [reflexivity|]. split.
  - exact (foreign_exceptions_are_masked
             (mkException AwsSnapshotError (Some "arn:aws:iam::123:role/x"))
             eq_refl).
  - exact (foreign_exceptions_are_masked
             (mkException (Subclass "MyNotFound" Http404 None)
                (Some "no such image")) eq_refl).
Defined.

(** The file's own API exceptions keep their status codes. *)
Lemma api_exceptions_pass_through_witness :
  isinstance (mkException MaximumNumberOfTrailsExceededException None)
    APIException = true ∧
  api_exception_handler
    (mkException MaximumNumberOfTrailsExceededException None)
    = (false,
       Some (mkResponse 409 MaximumNumberOfTrailsExceededException None)) ∧
  api_exception_handler (mkException InvalidArn (Some "not an ARN"))
    = (false, Some (mkResponse 400 InvalidArn (Some "not an ARN"))).
Proof.
  split; [reflexivity|]. split.
  - destruct (api_exceptions_pass_through
                (mkException MaximumNumberOfTrailsExceededException None)
                eq_refl) as (s & Hs & Hr).
    vm_compute in Hs. injection Hs as <-. exact Hr.
  - destruct (api_exceptions_pass_through
                (mkException InvalidArn (Some "not an ARN")) eq_refl)
      as (s & Hs & Hr).
    vm_compute in Hs. injection Hs as <-. exact Hr.
Defined.

End ApiExceptionHandlerExamples.

(** ** Inspection results *)

Section InspectionResults.

Import Inspection.

Variable S : Type.
Variable cloud_of : string → exn + option string.
Variable CLOUD_TYPE_AWS : string.
Variable persist_aws_inspection_cluster_results : string → S → option exn * S.
Variable delete_messages_from_queue : list Message → S → option exn * S.
Variable scale_down_cluster_delay : S → option exn * S.

Abbreviation loop := (process_messages S cloud_of CLOUD_TYPE_AWS
  persist_aws_inspection_cluster_results delete_messages_from_queue).
Abbreviation persist_task := (persist_inspection_cluster_results_task S
  cloud_of CLOUD_TYPE_AWS persist_aws_inspection_cluster_results
  delete_messages_from_queue scale_down_cluster_delay).

Lemma loop_adds messages : ∀ p,
  added cloud_of CLOUD_TYPE_AWS messages p (loop messages p).2
    (bool_decide ((loop messages p).1 = None)).
Proof.
  induction messages as [|message rest IH]; intros p.
  { simpl. apply (mkAdded _ _ _ _ _ _ [] [] []);
      rewrite ?app_nil_r; try done; try constructor. }
  cbn [process_messages].
  destruct (cloud_of (body message)) as [e|cloud] eqn:Hcloud.
  { simpl. apply (mkAdded _ _ _ _ _ _ [] [] []);
      rewrite ?app_nil_r;
      first [done | apply sublist_nil_l | constructor]. }
  assert (Hfurther : ∀ l,
    Forall (λ m, m ∈ rest ∧ cloud_of (body m) = inr (Some CLOUD_TYPE_AWS)) l →
    Forall (λ m, m ∈ message :: rest ∧
                 cloud_of (body m) = inr (Some CLOUD_TYPE_AWS)) l).
  { intros l Hl. eapply Forall_impl; [exact Hl|].
    intros m [? ?]. split; [by apply list_elem_of_further | done]. }
  destruct (bool_decide (cloud = Some CLOUD_TYPE_AWS)) eqn:Haws.
  - apply bool_decide_eq_true in Haws. subst cloud.
    destruct (persist_aws_inspection_cluster_results _ _) as [[e|] s1];
      cbn [fst snd].
    + destruct (IH (mkProgress S (successes S p) (failures S p ++ [message])
                      (actions S p ++ [Persisted message (Some e)]) s1))
        as [ns nf na Hs Hf Ha Hso Hfo Hall Hdel Hper Haws Hsc].
      cbn [successes failures actions] in Hs, Hf, Ha.
      apply (mkAdded _ _ _ _ _ _ ns (message :: nf)
               (Persisted message (Some e) :: na)).
      * done.
      * by rewrite Hf, <- app_assoc.
      * by rewrite Ha, <- app_assoc.
      * by apply sublist_cons.
      * by apply sublist_skip.
      * intros Hfin. rewrite <- Permutation_middle. by rewrite (Hall Hfin).
      * done.
      * cbn. by apply sublist_cons.
      * cbn. constructor; [split; [apply list_elem_of_here | done] | by apply Hfurther].
      * done.
    + destruct (delete_messages_from_queue _ s1) as [[e|] s2]; cbn [fst snd].
      * apply (mkAdded _ _ _ _ _ _ [] []
                 [Persisted message None; Deleted message (Some e)]);
          rewrite ?app_nil_r; try done; try apply sublist_nil_l.
        cbn. constructor; [split; [apply list_elem_of_here | done] | constructor].
      * destruct (IH (mkProgress S (successes S p ++ [message]) (failures S p)
                        (actions S p ++ [Persisted message None;
                                         Deleted message None]) s2))
          as [ns nf na Hs Hf Ha Hso Hfo Hall Hdel Hper Haws Hsc].
        cbn [successes failures actions] in Hs, Hf, Ha.
        apply (mkAdded _ _ _ _ _ _ (message :: ns) nf
                 (Persisted message None :: Deleted message None :: na)).
        -- by rewrite Hs, <- app_assoc.
        -- done.
        -- by rewrite Ha, <- app_assoc.
        -- by apply sublist_skip.
        -- by apply sublist_cons.
        -- intros Hfin. simpl. by rewrite (Hall Hfin).
        -- by rewrite <- Hdel.
        -- cbn. by apply sublist_skip.
        -- cbn. constructor; [split; [apply list_elem_of_here | done] | by apply Hfurther].
        -- done.
  - destruct (IH (mkProgress S (successes S p) (failures S p ++ [message])
                    (actions S p) (state S p)))
      as [ns nf na Hs Hf Ha Hso Hfo Hall Hdel Hper Haws' Hsc].
    cbn [successes failures actions] in Hs, Hf, Ha.
    apply (mkAdded _ _ _ _ _ _ ns (message :: nf) na).
    + done.
    + by rewrite Hf, <- app_assoc.
    + done.
    + by apply sublist_cons.
    + by apply sublist_skip.
    + intros Hfin. rewrite <- Permutation_middle. by rewrite (Hall Hfin).
    + done.
    + done.
    + by apply Hfurther.
    + done.
Qed.

(** A loop that went through all the messages read every body and saw
    every deletion go through. *)
Lemma loop_finished messages : ∀ p,
  (loop messages p).1 = None →
  Forall (λ m, ∃ cloud, cloud_of (body m) = inr cloud) messages ∧
  ∀ m e, Deleted m (Some e) ∈ actions S (loop messages p).2 →
         Deleted m (Some e) ∈ actions S p.
Proof.
  induction messages as [|message rest IH]; intros p; cbn [process_messages].
  { intros _. split; [constructor | done]. }
  destruct (cloud_of (body message)) as [e|cloud] eqn:Hcloud; [done|].
  destruct (bool_decide (cloud = Some CLOUD_TYPE_AWS)).
  - destruct (persist_aws_inspection_cluster_results _ _) as [[e|] s1];
      cbn [fst snd].
    + intros Hfin. destruct (IH _ Hfin) as [Hread Hdel].
      split; [constructor; eauto|].
      intros m e' Hin. apply Hdel in Hin. cbn [actions] in Hin.
      apply elem_of_app in Hin as [Hin|Hin]; [done|].
      apply list_elem_of_singleton in Hin. discriminate Hin.
    + destruct (delete_messages_from_queue _ s1) as [[e|] s2];
        cbn [fst snd]; [done|].
      intros Hfin. destruct (IH _ Hfin) as [Hread Hdel].
      split; [constructor; eauto|].
      intros m e' Hin. apply Hdel in Hin. cbn [actions] in Hin.
      apply elem_of_app in Hin as [Hin|Hin]; [done|].
      apply elem_of_cons in Hin as [Hin|Hin]; [discriminate Hin|].
      apply list_elem_of_singleton in Hin. discriminate Hin.
  - intros Hfin. destruct (IH _ Hfin) as [Hread Hdel].
    split; [constructor; eauto|].
    intros m e' Hin. by apply Hdel in Hin.
Qed.

(** The three ways the task ends: the loop is cut short by an exception;
    the queue yielded nothing; or the loop finished and the scale-down was
    requested. *)
Lemma persist_task_cases messages s r acts s' :
  persist_task messages s = (r, acts, s') →
  ∃ p' finished,
    added cloud_of CLOUD_TYPE_AWS messages (mkProgress S [] [] [] s) p'
      finished ∧
    (finished = true →
       Forall (λ m, ∃ cloud, cloud_of (body m) = inr cloud) messages ∧
       ∀ m e, Deleted m (Some e) ∉ actions S p') ∧
    ((finished = false ∧ (∃ e, r = inl e) ∧ acts = actions S p') ∨
     (finished = true ∧ successes S p' = [] ∧ failures S p' = [] ∧
        r = inr ([], []) ∧ acts = actions S p') ∨
     (finished = true ∧ (successes S p' ≠ [] ∨ failures S p' ≠ []) ∧
        ∃ raised, acts = actions S p' ++ [ScaledDown raised] ∧
          r = match raised with
              | Some e => inl e
              | None => inr (successes S p', failures S p')
              end)).
Proof.
  unfold persist_inspection_cluster_results_task. intros Hrun.
  pose proof (loop_adds messages (mkProgress S [] [] [] s)) as Hadd.
  pose proof (loop_finished messages (mkProgress S [] [] [] s)) as Hfin.
  destruct (loop messages _) as [[e|] p'] eqn:Hloop; cbn [fst snd] in *.
  - simplify_eq. exists p', false. split; [done|]. split; [done|].
    left. eauto.
  - assert (Hclean :
      Forall (λ m, ∃ cloud, cloud_of (body m) = inr cloud) messages ∧
      ∀ m e, Deleted m (Some e) ∉ actions S p').
    { destruct (Hfin eq_refl) as [Hread Hdel]. split; [done|].
      intros m e Hin. apply Hdel in Hin. cbn in Hin.
      by apply elem_of_nil in Hin. }
    rewrite bool_decide_eq_true_2 in Hadd by done.
    case_bool_decide as Hany.
    + destruct (scale_down_cluster_delay _) as [raised s2].
      cbn [fst snd] in Hrun. exists p', true.
      split; [done|]. split; [done|]. right; right.
      split; [done|]. split; [done|]. exists raised.
      destruct raised; by simplify_eq.
    + simplify_eq. exists p', true. split; [done|]. split; [done|].
      right; left.
      destruct (successes S p') as [|m l] eqn:Hs;
        [|exfalso; apply Hany; by left].
      destruct (failures S p') as [|m l] eqn:Hf;
        [|exfalso; apply Hany; by right].
      done.
Qed.

Lemma deleted_messages_scaled acts raised :
  deleted_messages (acts ++ [ScaledDown raised]) = deleted_messages acts.
Proof. unfold deleted_messages. by rewrite omap_app, app_nil_r. Qed.

Lemma persisted_messages_scaled acts raised :
  persisted_messages (acts ++ [ScaledDown raised]) = persisted_messages acts.
Proof. unfold persisted_messages. by rewrite omap_app, app_nil_r. Qed.

Ltac task_cases Hrun :=
  apply persist_task_cases in Hrun
    as (p' & finished &
        [ns nf na Hs Hf Ha Hso Hfo Hall Hdel Hper Haws Hsc] & Hclean &
        [(-> & [e' Hr] & ->) |
         [(-> & Hs0 & Hf0 & Hr & ->) |
          (-> & Hany & raised & -> & Hr)]]);
  cbn [successes failures actions app] in Hs, Hf, Ha.

(** X18: when the task returns, every message the queue yielded is in
    exactly one of the two lists it returns, and each list keeps the order
    in which the messages came. *)
Theorem every_message_is_tallied messages s succeeded failed acts s' :
  persist_inspection_cluster_results_task S cloud_of CLOUD_TYPE_AWS
    persist_aws_inspection_cluster_results delete_messages_from_queue
    scale_down_cluster_delay messages s
    = (inr (succeeded, failed), acts, s') →
  succeeded ++ failed ≡ₚ messages ∧
  succeeded `sublist_of` messages ∧ failed `sublist_of` messages.
Proof.
  intros Hrun. task_cases Hrun; [done| |].
  - injection Hr as -> ->. rewrite Hs0 in Hs. rewrite Hf0 in Hf.
    subst ns nf. split; [by apply Hall | done].
  - destruct raised; [discriminate Hr|]. injection Hr as -> ->.
    rewrite Hs, Hf. split; [by apply Hall | done].
Qed.

(** X19: when the task returns, the messages it deleted from the queue are
    exactly the ones it reports as successes, in the same order. *)
Theorem successes_are_the_deleted_messages messages s succeeded failed acts
    s' :
  persist_inspection_cluster_results_task S cloud_of CLOUD_TYPE_AWS
    persist_aws_inspection_cluster_results delete_messages_from_queue
    scale_down_cluster_delay messages s
    = (inr (succeeded, failed), acts, s') →
  deleted_messages acts = succeeded.
Proof.
  intros Hrun. task_cases Hrun; [done| |].
  - injection Hr as -> ->. by rewrite Ha, Hdel, <- Hs.
  - destruct raised; [discriminate Hr|]. injection Hr as -> ->.
    by rewrite deleted_messages_scaled, Ha, Hdel, <- Hs.
Qed.

(** X20: however the task ends, it deleted from the queue only messages it
    had handed to the persister, and it handed to the persister only
    messages of the queue whose body names the AWS cloud type. *)
Theorem deletes_only_persisted_aws_messages messages s :
  let acts :=
    (persist_inspection_cluster_results_task S cloud_of CLOUD_TYPE_AWS
       persist_aws_inspection_cluster_results delete_messages_from_queue
       scale_down_cluster_delay messages s).1.2 in
  deleted_messages acts `sublist_of` persisted_messages acts ∧
  Forall (λ m, m ∈ messages ∧ cloud_of (body m) = inr (Some CLOUD_TYPE_AWS))
    (persisted_messages acts).
Proof.
  destruct (persist_task messages s) as [[r acts] s'] eqn:Hrun.
  cbn [fst snd]. task_cases Hrun;
    rewrite ?deleted_messages_scaled, ?persisted_messages_scaled, Ha, Hdel;
    done.
Qed.

(** X21: the scale-down of the cluster is requested at most once and as the
    last thing the task does, only when the queue yielded a message, and an
    exception of the request is the task's. *)
Theorem scale_down_comes_last messages s r acts s' :
  persist_inspection_cluster_results_task S cloud_of CLOUD_TYPE_AWS
    persist_aws_inspection_cluster_results delete_messages_from_queue
    scale_down_cluster_delay messages s = (r, acts, s') →
  scaled_down acts = true →
  messages ≠ [] ∧
  ∃ before raised,
    acts = before ++ [ScaledDown raised] ∧ scaled_down before = false ∧
    ∀ e, raised = Some e → r = inl e.
Proof.
  intros Hrun Hscaled. task_cases Hrun.
  - rewrite Ha, Hsc in Hscaled. discriminate Hscaled.
  - rewrite Ha, Hsc in Hscaled. discriminate Hscaled.
  - split.
    + intros ->. specialize (Hall eq_refl).
      apply Permutation_nil_r, app_eq_nil in Hall as [-> ->].
      rewrite Hs, Hf in Hany. by destruct Hany.
    + exists (actions S p'), raised.
      split; [done|]. split; [by rewrite Ha|]. by intros e ->.
Qed.


(** X23: one message whose body cannot be read makes the whole task raise,
    and then the scale-down of the cluster is not requested. *)
Theorem unreadable_body_fails_the_task messages s m e r acts s' :
  m ∈ messages →
  cloud_of (body m) = inl e →
  persist_inspection_cluster_results_task S cloud_of CLOUD_TYPE_AWS
    persist_aws_inspection_cluster_results delete_messages_from_queue
    scale_down_cluster_delay messages s = (r, acts, s') →
  (∃ e', r = inl e') ∧ scaled_down acts = false.
Proof.
  intros Hin Hbody Hrun. task_cases Hrun.
  - split; [eauto|]. by rewrite Ha.
  - destruct (Hclean eq_refl) as [Hread _].
    rewrite Forall_forall in Hread. destruct (Hread m Hin) as [c Hc].
    rewrite Hbody in Hc. discriminate Hc.
  - destruct (Hclean eq_refl) as [Hread _].
    rewrite Forall_forall in Hread. destruct (Hread m Hin) as [c Hc].
    rewrite Hbody in Hc. discriminate Hc.
Qed.

(** X24: a deletion from the queue that raises makes the whole task raise,
    and then the scale-down of the cluster is not requested. *)
Theorem failed_deletion_fails_the_task messages s m e r acts s' :
  persist_inspection_cluster_results_task S cloud_of CLOUD_TYPE_AWS
    persist_aws_inspection_cluster_results delete_messages_from_queue
    scale_down_cluster_delay messages s = (r, acts, s') →
  Deleted m (Some e) ∈ acts →
  (∃ e', r = inl e') ∧ scaled_down acts = false.
Proof.
  intros Hrun Hin. task_cases Hrun.
  - split; [eauto|]. by rewrite Ha.
  - destruct (Hclean eq_refl) as [_ Hdeleted]. by apply Hdeleted in Hin.
  - destruct (Hclean eq_refl) as [_ Hdeleted].
    apply elem_of_app in Hin as [Hin|Hin]; [by apply Hdeleted in Hin|].
    apply list_elem_of_singleton in Hin. discriminate Hin.
Qed.

End InspectionResults.

Section InspectionExamples.

Import Inspection Queue.

Abbreviation queue_task := (persist_inspection_cluster_results_task
  (list string) Queue.cloud_of AWS persist Queue.delete scale_down).

Lemma every_message_is_tallied_witness :
  queue_task [from_aws; from_azure] []
    = (inr ([from_aws], [from_azure]),
       [Persisted from_aws None; Deleted from_aws None; ScaledDown None],
       ["aws"]) ∧
  [from_aws] ++ [from_azure] ≡ₚ [from_aws; from_azure] ∧
  [from_aws] `sublist_of` [from_aws; from_azure] ∧
  [from_azure] `sublist_of` [from_aws; from_azure].
Proof.
  assert (Hrun : queue_task [from_aws; from_azure] []
    = (inr ([from_aws], [from_azure]),
       [Persisted from_aws None; Deleted from_aws None; ScaledDown None],
       ["aws"])) by reflexivity.
  split; [exact Hrun|].
  exact (every_message_is_tallied _ _ _ _ _ _ _ _ _ _ _ _ Hrun).
Defined.

Lemma successes_are_the_deleted_messages_witness :
  queue_task [from_azure; from_aws] []
    = (inr ([from_aws], [from_azure]),
       [Persisted from_aws None; Deleted from_aws None; ScaledDown None],
       ["aws"]) ∧
  deleted_messages
    [Persisted from_aws None; Deleted from_aws None; ScaledDown None]
    = [from_aws].
Proof.
  assert (Hrun : queue_task [from_azure; from_aws] []
    = (inr ([from_aws], [from_azure]),
       [Persisted from_aws None; Deleted from_aws None; ScaledDown None],
       ["aws"])) by reflexivity.
  split; [exact Hrun|].
  exact (successes_are_the_deleted_messages _ _ _ _ _ _ _ _ _ _ _ _ Hrun).
Defined.

Lemma scale_down_comes_last_witness :
  queue_task [from_azure] [] = (inr ([], [from_azure]), [ScaledDown None], [])
  ∧ scaled_down [ScaledDown None] = true
  ∧ [from_azure] ≠ []
  ∧ ∃ before raised,
      [ScaledDown None] = before ++ [ScaledDown raised] ∧
      scaled_down before = false ∧
      ∀ e, raised = Some e →
           @inr exn (list Message * list Message) ([], [from_azure]) = inl e.
Proof.
  assert (Hrun : queue_task [from_azure] []
    = (inr ([], [from_azure]), [ScaledDown None], [])) by reflexivity.
  split; [exact Hrun|]. split; [reflexivity|].
  exact (scale_down_comes_last _ _ _ _ _ _ _ _ _ _ _ Hrun eq_refl).
Defined.


Lemma unreadable_body_fails_the_task_witness :
  unreadable ∈ [from_aws; unreadable; from_azure] ∧
  Queue.cloud_of (body unreadable) = inl (OtherError "JSONDecodeError") ∧
  queue_task [from_aws; unreadable; from_azure] []
    = (inl (OtherError "JSONDecodeError"),
       [Persisted from_aws None; Deleted from_aws None], ["aws"]) ∧
  (∃ e', @inl exn (list Message * list Message)
           (OtherError "JSONDecodeError") = inl e') ∧
  scaled_down [Persisted from_aws None; Deleted from_aws None] = false.
Proof.
  assert (Hin : unreadable ∈ [from_aws; unreadable; from_azure])
    by apply list_elem_of_further, list_elem_of_here.
  assert (Hrun : queue_task [from_aws; unreadable; from_azure] []
    = (inl (OtherError "JSONDecodeError"),
       [Persisted from_aws None; Deleted from_aws None], ["aws"]))
    by reflexivity.
  split; [exact Hin|]. split; [reflexivity|]. split; [exact Hrun|].
  exact (unreadable_body_fails_the_task _ _ _ _ _ _ _ _ _ _ _ _ _
           Hin eq_refl Hrun).
Defined.

Lemma failed_deletion_fails_the_task_witness :
  queue_task [stuck; from_aws] []
    = (inl (OtherError "ClientError"),
       [Persisted stuck None; Deleted stuck (Some (OtherError "ClientError"))],
       ["aws"]) ∧
  Deleted stuck (Some (OtherError "ClientError"))
    ∈ [Persisted stuck None;
       Deleted stuck (Some (OtherError "ClientError"))] ∧
  (∃ e', @inl exn (list Message * list Message)
           (OtherError "ClientError") = inl e') ∧
  scaled_down
    [Persisted stuck None; Deleted stuck (Some (OtherError "ClientError"))]
    = false.
Proof.
  assert (Hrun : queue_task [stuck; from_aws] []
    = (inl (OtherError "ClientError"),
       [Persisted stuck None; Deleted stuck (Some (OtherError "ClientError"))],
       ["aws"])) by reflexivity.
  assert (Hin : Deleted stuck (Some (OtherError "ClientError"))
    ∈ [Persisted stuck None;
       Deleted stuck (Some (OtherError "ClientError"))])
    by apply list_elem_of_further, list_elem_of_here.
  split; [exact Hrun|]. split; [exact Hin|].
  exact (failed_deletion_fails_the_task _ _ _ _ _ _ _ _ _ _ _ _ _ Hrun Hin).
Defined.

End InspectionExamples.

(** ** Inactive users *)

Section InactiveUsers.

Import Users.

Variable is_superuser : Z → bool.
Variable date_joined : Z → Z.
Variable now : Z.
Variable DELETE_INACTIVE_USERS_MIN_AGE : Z.
Variable User_delete : Z → DB → exn + Z * DB.

Lemma no_account_of user d :
  CloudAccount_filter_user_exists user d = false →
  ∀ id, cloud_accounts d !! id ≠ Some user.
Proof.
  unfold CloudAccount_filter_user_exists. intros Hnone id Hrow.
  apply bool_decide_eq_false in Hnone. apply Hnone.
  apply Exists_exists. exists (id, user).
  split; [by apply elem_of_map_to_list | done].
Qed.

Lemma delete_user_calls user d :
  Forall (λ call, deleted_user call = user ∧
                  ∀ id, cloud_accounts (store_before call) !! id ≠ Some user)
    (_delete_user User_delete user d).1.2 ∧
  (length (_delete_user User_delete user d).1.2 ≤ 1)%nat ∧
  ((_delete_user User_delete user d).1.1 = inr true →
   length (_delete_user User_delete user d).1.2 = 1%nat).
Proof.
  unfold _delete_user.
  destruct (CloudAccount_filter_user_exists user d) eqn:Hnone; cbn.
  { split; [constructor|]. split; [lia | done]. }
  pose proof (no_account_of _ _ Hnone) as Hrows.
  destruct (User_delete user d) as [e|[count d']]; cbn;
    (split; [by repeat constructor|]); split; (lia || done).
Qed.

Lemma delete_each_calls users : ∀ count d,
  let result := delete_each User_delete users count d in
  Forall (λ call, deleted_user call ∈ users ∧
                  ∀ id, cloud_accounts (store_before call) !! id
                        ≠ Some (deleted_user call))
    result.1.2 ∧
  deleted_user <$> result.1.2 `sublist_of` users ∧
  count ≤ result.1.1.2 ≤ count + Z.of_nat (length result.1.2).
Proof.
  induction users as [|user rest IH]; intros count d; cbn.
  { split; [constructor|]. split; [done | lia]. }
  pose proof (delete_user_calls user d) as (Hcalls & Hlen & Hone).
  destruct (_delete_user User_delete user d) as [[[e|deleted] calls] d'];
    cbn [fst snd] in *.
  - split; [|split; [|lia]].
    + eapply Forall_impl; [exact Hcalls|]. intros call [<- Hrows].
      split; [apply list_elem_of_here | done].
    + destruct calls as [|call [|? ?]]; [apply sublist_nil_l| |simpl in Hlen; lia].
      apply Forall_cons in Hcalls as [[<- _] _]. cbn.
      apply sublist_skip, sublist_nil_l.
  - specialize (IH (if deleted then count + 1 else count) d').
    destruct (delete_each User_delete rest _ d') as [[[raised n] calls'] d''];
      cbn [fst snd] in *.
    destruct IH as (Hrest & Hsub & Hcount).
    split; [|split].
    + apply Forall_app. split.
      * eapply Forall_impl; [exact Hcalls|]. intros call [<- Hrows].
        split; [apply list_elem_of_here | done].
      * eapply Forall_impl; [exact Hrest|]. intros call [Hin Hrows].
        split; [by apply list_elem_of_further | done].
    + rewrite fmap_app.
      destruct calls as [|call [|? ?]]; [by apply sublist_cons| |simpl in Hlen; lia].
      apply Forall_cons in Hcalls as [[<- _] _]. cbn.
      by apply sublist_skip.
    + rewrite length_app.
      destruct deleted; [rewrite (Hone eq_refl)|]; lia.
Qed.


(** X26: the task asks at most once for the deletion of a user, and the
    count of deleted users it reaches lies between zero and the number of
    deletions it asked for. *)
Theorem deleted_user_count_is_bounded d :
  let result := delete_inactive_users is_superuser date_joined now
                  DELETE_INACTIVE_USERS_MIN_AGE User_delete d in
  NoDup (deleted_user <$> result.1.2) ∧
  0 ≤ result.1.1.2 ≤ Z.of_nat (length result.1.2).
Proof.
  unfold delete_inactive_users.
  destruct (delete_each_calls
              (User_filter is_superuser date_joined
                 (now - DELETE_INACTIVE_USERS_MIN_AGE) d) 0 d)
    as (_ & Hsub & Hcount).
  cbn zeta. split; [|lia].
  eapply sublist_NoDup; [|exact Hsub].
  unfold User_filter. apply NoDup_filter, NoDup_elements.
Qed.

(** Of four users, only the one who is neither a superuser, nor the owner of
    a cloud account, nor a recent arrival is deleted. *)
Example one_inactive_user_of_four :
  delete_inactive_users superuser joined 100 10 remove_row users_store
  = (None, 1, [mkDeletion 4 users_store],
     mkDB {[1; 2; 3]} ∅ ∅ {[20 := 2]} ∅ []).
Proof. vm_compute. reflexivity. Qed.

End InactiveUsers.
